(** * ingest/import_merge.py: import, merge and export of the sales tables

    A shallow embedding of [ml_app/app/ingest/import_merge.py] and of the
    part of pandas it calls.  The file has three layers:

    - [Pandas]: the library operations the program uses
      ([read_csv], [drop_duplicates], [merge(how='left')], [to_datetime],
      item access and assignment, [to_csv(index=False)]) on a row-major
      table of dynamically typed cells;
    - the program with tables as values ([import_gcs_data], [merge_data]);
    - [Ref]: the program with tables as heap objects handled by reference,
      together with the storage backend and the console, for the claims
      about aliasing, mutation and the order of writes. *)

From Stdlib Require Import ZArith Ascii.
From Stdlib Require Import Floats.SpecFloat.
From stdpp Require Import base option list strings gmap pretty.

(** ** Exceptions and results *)

Inductive exception :=
  | UnboundLocalError (var : string)   (* a local read before assignment *)
  | KeyError (key : string)            (* a column label that is absent *)
  | ValueError (what : string)         (* ambiguous label, unparsable text *)
  | MergeError (what : string)         (* a merge the library refuses *)
  | OSError (path : string).           (* the storage backend refused *)

Inductive result (A : Type) :=
  | Ok (a : A)
  | Raise (e : exception).
Arguments Ok {A} a.
Arguments Raise {A} e.

Global Instance exception_eq_dec : EqDecision exception.
Proof. solve_decision. Defined.

Global Instance result_ret : MRet result := @Ok.
Global Instance result_bind : MBind result := fun A B f m =>
  match m with
  | Ok a => f a
  | Raise e => Raise e
  end.
Global Instance result_fmap : FMap result := fun A B f m =>
  match m with
  | Ok a => Ok (f a)
  | Raise e => Raise e
  end.

Definition succeeds {A} (m : result A) : Prop := ∃ a, m = Ok a.
Definition fails {A} (m : result A) : Prop := ∃ e, m = Raise e.

(** ** The pandas operations the program calls *)

Module Pandas.

(** A 64-bit float, as IEEE 754 specifies it, and the float nearest to an
    integer (ties to even), which is what a cast of int64 to float64
    gives. *)
Abbreviation float64 := spec_float.

Global Instance float64_eq_dec : EqDecision float64.
Proof. solve_decision. Defined.

Definition float_of_int (z : Z) : float64 := binary_normalize 53 1024 z 0 false.

(** A cell.  [NaN] is the missing value of number and text columns;
    [NaT] is the missing timestamp; [Float] holds the other floats; a
    [Timestamp] counts nanoseconds since 1970.  Boolean cells are not
    modelled. *)
Inductive value :=
  | NaN
  | NaT
  | Int (z : Z)
  | Float (f : float64)
  | Str (s : string)
  | Timestamp (t : Z).

Global Instance value_eq_dec : EqDecision value.
Proof. solve_decision. Defined.

Abbreviation Series := (list value).
Abbreviation Row := (list value).

(** A table: the column labels in order (labels may repeat, as in pandas)
    and the rows in order, each row positional. The index is not modelled:
    the program never reads it and exports with [index=False].  A column
    has the dtype its cells show: int64 when all are [Int], datetime64
    when there are cells and all are timestamps. *)
Record DataFrame := mkDataFrame {
  columns : list string;
  rows : list Row;
}.

Global Instance DataFrame_eq_dec : EqDecision DataFrame.
Proof. solve_decision. Defined.

(** Every row has one cell per column, as in every pandas table. *)
Definition well_formed (t : DataFrame) : Prop :=
  Forall (fun r => length r = length (columns t)) (rows t).

Definition cell (r : Row) (i : nat) : value := default NaN (r !! i).

Definition column_cells (rs : list Row) (c : nat) : Series :=
  map (fun r => cell r c) rs.

(** Positions of a label among the columns. *)
Fixpoint positions_from (n : nat) (c : string) (cols : list string) : list nat :=
  match cols with
  | [] => []
  | c' :: cols' =>
      if decide (c' = c) then n :: positions_from (S n) c cols'
      else positions_from (S n) c cols'
  end.
Definition positions := positions_from 0.

(** The position of a label used as a key or read as a column: absent
    labels raise [KeyError], repeated ones [ValueError]. *)
Definition column_index (c : string) (cols : list string) : result nat :=
  match positions c cols with
  | [] => Raise (KeyError c)
  | [i] => Ok i
  | _ => Raise (ValueError c)
  end.

(** [df[c]] *)
Definition getitem (t : DataFrame) (c : string) : result Series :=
  i ← column_index c (columns t);
  Ok (column_cells (rows t) i).

(** [df[c] = s]: overwrites the column(s) labelled [c], or appends a new
    column when there is none; the lengths must agree. *)
Definition set_cells (ps : list nat) (v : value) (r : Row) : Row :=
  foldr (fun i r' => <[i:=v]> r') r ps.

Definition setitem (t : DataFrame) (c : string) (s : Series) : result DataFrame :=
  if decide (length s = length (rows t)) then
    match positions c (columns t) with
    | [] => Ok (mkDataFrame (columns t ++ [c])
                            (zip_with (fun r v => r ++ [v]) (rows t) s))
    | ps => Ok (mkDataFrame (columns t)
                            (zip_with (fun r v => set_cells ps v r) (rows t) s))
    end
  else Raise (ValueError c).

(** [df.copy()] of a value is the value. *)
Definition copy (t : DataFrame) : DataFrame := t.

(** [df.drop_duplicates()]: keeps the first occurrence of every row, in
    order. *)
Fixpoint drop_seen (seen : list Row) (rs : list Row) : list Row :=
  match rs with
  | [] => []
  | r :: rs' =>
      if decide (r ∈ seen) then drop_seen seen rs'
      else r :: drop_seen (r :: seen) rs'
  end.

Definition drop_duplicates (t : DataFrame) : DataFrame :=
  mkDataFrame (columns t) (drop_seen [] (rows t)).

(** *** The left join

    [left.merge(right=right, left_on=on, right_on=on, how='left')].

    The key column must exist once on each side.  Labels other than the
    key that occur on both sides get the suffixes [_x] and [_y]; the key
    column of the right table is dropped.  Every left row, in order, is
    paired with the right rows carrying the same key, in order; a left row
    without partner is kept once, padded with missing values. *)
Definition suffixed (suffix : string) (others : list string) (on c : string)
  : string :=
  if decide (c ≠ on ∧ c ∈ others) then c +:+ suffix else c.

Definition merged_columns (lcols rcols : list string) (on : string) (j : nat)
  : list string :=
  map (suffixed "_x" rcols on) lcols
  ++ map (suffixed "_y" lcols on) (delete j rcols).

(** Keys are compared as they are, and as floats once one of the two key
    columns holds a float: then an integer counts as the float nearest to
    it, and the two zeros as one. *)
Definition is_float (v : value) : bool :=
  match v with Float _ => true | _ => false end.

Definition as_float_key (v : value) : value :=
  match v with
  | Int z => Float (float_of_int z)
  | Float (S754_zero _) => Float (S754_zero false)
  | Float S754_nan => NaN
  | _ => v
  end.

Definition key_form (floats : bool) (v : value) : value :=
  if floats then as_float_key v else v.

Definition compared_as_floats (lkeys rkeys : Series) : bool :=
  existsb is_float (lkeys ++ rkeys).

Definition partners (floats : bool) (k : value) (j : nat) (rrows : list Row)
  : list Row :=
  filter (fun r => key_form floats (cell r j) = key_form floats k) rrows.

Definition unmatched (floats : bool) (i j : nat) (rrows : list Row) (l : Row)
  : bool :=
  match partners floats (cell l i) j rrows with
  | [] => true
  | _ => false
  end.

(** Once some left row is unmatched, every column taken from the right
    table must hold a missing value: an int64 column becomes float64, and
    the missing value is [NaT] in a datetime64 column, [NaN] elsewhere. *)
Definition is_int (v : value) : bool :=
  match v with Int _ => true | _ => false end.

Definition is_date (v : value) : bool :=
  match v with Timestamp _ | NaT => true | _ => false end.

Definition holds_ints (s : Series) : bool := forallb is_int s.

Definition holds_dates (s : Series) : bool :=
  match s with
  | [] => false
  | _ => forallb is_date s
  end.

Definition promote (v : value) : value :=
  match v with
  | Int z => Float (float_of_int z)
  | _ => v
  end.

Definition missing_of (s : Series) : value :=
  if holds_dates s then NaT else NaN.

Definition promote_row (right : DataFrame) (r : Row) : Row :=
  imap (fun c v => if holds_ints (column_cells (rows right) c)
                   then promote v else v) r.

(** The cells a right row gives to a joined row, and those an unmatched
    left row gets. *)
Definition carried (promoting : bool) (right : DataFrame) (j : nat) (r : Row)
  : Row :=
  delete j (if promoting then promote_row right r else r).

Definition missing_row (right : DataFrame) (j : nat) : Row :=
  delete j (map (fun c => missing_of (column_cells (rows right) c))
                (seq 0 (length (columns right)))).

Definition join_row (floats promoting : bool) (i j : nat) (right : DataFrame)
    (l : Row) : list Row :=
  match partners floats (cell l i) j (rows right) with
  | [] => [l ++ missing_row right j]
  | ms => map (fun r => l ++ carried promoting right j r) ms
  end.

Definition key_floats (i j : nat) (left right : DataFrame) : bool :=
  compared_as_floats (column_cells (rows left) i)
                     (column_cells (rows right) j).

Definition some_unmatched (i j : nat) (left right : DataFrame) : bool :=
  existsb (unmatched (key_floats i j left right) i j (rows right))
          (rows left).

Definition joined_rows (i j : nat) (left right : DataFrame) : list Row :=
  flat_map (join_row (key_floats i j left right)
                     (some_unmatched i j left right) i j right)
           (rows left).

(** What the library leaves to its environment, or decides by rules of
    its own that differ between its versions:
    - the format [to_datetime] infers for a column of texts ([None] when it
      parses every text by itself), and the parsing of one text under it;
    - the reading of a float as a timestamp;
    - the printing of a timestamp and of a float;
    - the parsing of the text of a CSV object;
    - what a merge refuses once both keys are found: key columns of dtypes
      it will not compare (text against numbers), suffixes that make two
      labels one. *)
Inductive parsed :=
  | Rejected
  | Missing
  | At (t : Z).

Class External := {
  datetime_format : Series → option string;
  parse_datetime : option string → string → parsed;
  float_to_datetime : float64 → parsed;
  format_datetime : Z → string;
  format_float : float64 → string;
  parse_csv : string → option DataFrame;
  merge_check : DataFrame → DataFrame → string → option exception;
}.

Section with_external.
Context `{External}.

Definition merge (left right : DataFrame) (on : string) : result DataFrame :=
  j ← column_index on (columns right);
  i ← column_index on (columns left);
  match merge_check left right on with
  | Some e => Raise e
  | None =>
      Ok (mkDataFrame
            (merged_columns (columns left) (columns right) on j)
            (joined_rows i j left right))
  end.

(** [pd.to_datetime(s)] with the default [errors='raise']: one format for
    the whole column, every cell converted under it.  Without format a
    number counts nanoseconds, the least 64-bit integer standing for the
    missing timestamp; under a format a number is printed and read as a
    text. *)
Definition of_parsed (what : string) (p : parsed) : result value :=
  match p with
  | At t => Ok (Timestamp t)
  | Missing => Ok NaT
  | Rejected => Raise (ValueError what)
  end.

Definition iNaT : Z := - 2 ^ 63.

Definition to_datetime_value (fmt : option string) (v : value) : result value :=
  match v with
  | NaN | NaT => Ok NaT
  | Timestamp t => Ok (Timestamp t)
  | Str s => of_parsed s (parse_datetime fmt s)
  | Int z =>
      match fmt with
      | None => Ok (if decide (z = iNaT) then NaT else Timestamp z)
      | Some _ => of_parsed (pretty z) (parse_datetime fmt (pretty z))
      end
  | Float f =>
      match fmt with
      | None => of_parsed (format_float f) (float_to_datetime f)
      | Some _ => of_parsed (format_float f) (parse_datetime fmt (format_float f))
      end
  end.

Fixpoint to_datetime_with (fmt : option string) (s : Series) : result Series :=
  match s with
  | [] => Ok []
  | v :: s' =>
      v' ← to_datetime_value fmt v;
      s'' ← to_datetime_with fmt s';
      Ok (v' :: s'')
  end.

Definition to_datetime (s : Series) : result Series :=
  to_datetime_with (datetime_format s) s.

(** [df.to_csv(path, index=False)]: the text written.  A header line and
    one line per row, fields separated by commas; a field holding a comma,
    a quote or a line break is quoted, with its quotes doubled, and so is
    the empty field of a line that has no other. *)
Definition format_value (v : value) : string :=
  match v with
  | NaN | NaT => ""
  | Int z => pretty z
  | Float f => format_float f
  | Str s => s
  | Timestamp t => format_datetime t
  end.

Definition quote_char : Ascii.ascii := "034"%char.

Fixpoint double_quotes (s : string) : string :=
  match s with
  | EmptyString => EmptyString
  | String a s' =>
      if decide (a = quote_char) then String a (String a (double_quotes s'))
      else String a (double_quotes s')
  end.

Fixpoint needs_quoting (s : string) : bool :=
  match s with
  | EmptyString => false
  | String a s' =>
      bool_decide (a = quote_char ∨ a = ","%char ∨ a = "010"%char ∨ a = "013"%char)
      || needs_quoting s'
  end.

Definition csv_field (s : string) : string :=
  if needs_quoting s
  then String quote_char (double_quotes s +:+ String quote_char EmptyString)
  else s.

Fixpoint csv_fields (fields : list string) : string :=
  match fields with
  | [] => String "010"%char EmptyString
  | [f] => csv_field f +:+ String "010"%char EmptyString
  | f :: fs => csv_field f +:+ "," +:+ csv_fields fs
  end.

Definition csv_line (fields : list string) : string :=
  match fields with
  | [EmptyString] =>
      String quote_char (String quote_char (String "010"%char EmptyString))
  | _ => csv_fields fields
  end.

Definition to_csv (t : DataFrame) : string :=
  csv_line (columns t)
  +:+ foldr (fun r acc => csv_line (map format_value r) +:+ acc) "" (rows t).

End with_external.

End Pandas.

Import Pandas.

(** ** The records the program passes around *)

(** The dict [import_data] with its four keys; a dict that lacks one is
    outside the documented input. *)
Module ImportData.
Record t := mk {
  bucket_name : string;
  import_data_folder : string;
  filename : string;
  df_name : string;
}.
End ImportData.

(** The dict [export_data] with the four keys the function reads. *)
Module ExportData.
Record t := mk {
  bucket_name : string;
  export_data_folder : string;
  local_export_folder : string;
  filename : string;
}.
End ExportData.

(** The dict [dict(df_name=..., df=...)] an import returns and the merge
    consumes; [T] is what a table is: a value, or a reference. *)
Module Named.
Record t (T : Type) := mk {
  df_name : string;
  df : T;
}.
Arguments mk {T} df_name df.
Arguments df_name {T} _.
Arguments df {T} _.
End Named.

(** The three locals the loop of [merge_data] assigns; [None] is a local
    that was never assigned. *)
Module Locals.
Record t (T : Type) := mk {
  df_sl : option T;
  df_it : option T;
  df_ic : option T;
}.
Arguments mk {T} df_sl df_it df_ic.
Arguments df_sl {T} _.
Arguments df_it {T} _.
Arguments df_ic {T} _.
Definition unbound {T} : t T := mk None None None.
End Locals.

(** Reading a local: unbound ones raise. *)
Definition read_local {T} (var : string) (v : option T) : result T :=
  match v with
  | Some x => Ok x
  | None => Raise (UnboundLocalError var)
  end.

(** The objects of the storage backend, by URI or path. *)
Abbreviation Files := (gmap string string).

Definition gcs_uri (bucket folder file : string) : string :=
  "gcs://" +:+ bucket +:+ "/" +:+ folder +:+ "/" +:+ file.

Definition local_path (folder file : string) : string :=
  folder +:+ "/" +:+ file.

(** ** The program, tables as values *)

Section program.
Context `{External}.

(** [pd.read_csv(uri)] *)
Definition read_csv (fs : Files) (uri : string) : result DataFrame :=
  match fs !! uri with
  | None => Raise (OSError uri)
  | Some text =>
      match parse_csv text with
      | Some t => Ok t
      | None => Raise (ValueError uri)
      end
  end.

Definition import_gcs_data (fs : Files) (import_data : ImportData.t)
  : result (Named.t DataFrame) :=
  let bucket_name := ImportData.bucket_name import_data in
  let import_data_folder := ImportData.import_data_folder import_data in
  let filename := ImportData.filename import_data in
  let df_name := ImportData.df_name import_data in
  df ← read_csv fs (gcs_uri bucket_name import_data_folder filename);
  let df := drop_duplicates df in
  Ok (Named.mk df_name df).

(** One turn of the loop that unpacks [df_list]. *)
Definition unpack_step (vars : Locals.t DataFrame) (df : Named.t DataFrame)
  : Locals.t DataFrame :=
  if decide (Named.df_name df = "df_sl") then
    Locals.mk (Some (copy (Named.df df))) (Locals.df_it vars) (Locals.df_ic vars)
  else if decide (Named.df_name df = "df_it") then
    Locals.mk (Locals.df_sl vars) (Some (copy (Named.df df))) (Locals.df_ic vars)
  else if decide (Named.df_name df = "df_ic") then
    Locals.mk (Locals.df_sl vars) (Locals.df_it vars) (Some (copy (Named.df df)))
  else vars.

Definition unpack (df_list : list (Named.t DataFrame)) : Locals.t DataFrame :=
  fold_left unpack_step df_list Locals.unbound.

(** The statements after the loop. *)
Definition merge_locals (vars : Locals.t DataFrame) : result DataFrame :=
  df_it ← read_local "df_it" (Locals.df_it vars);
  df_ic ← read_local "df_ic" (Locals.df_ic vars);
  df ← merge df_it df_ic "item_category_id";
  df_sl ← read_local "df_sl" (Locals.df_sl vars);
  df ← merge df_sl df "item_id";
  date ← getitem df "date";
  date ← to_datetime date;
  setitem df "date" date.

Definition merge_data (df_list : list (Named.t DataFrame)) : result DataFrame :=
  merge_locals (unpack df_list).

End program.

(** ** The program, tables as objects *)

Module Ref.

Definition loc := nat.

Inductive event :=
  | Printed (line : string)
  | Written (path : string) (text : string).

(** The heap of table objects (a reference is a position in it), the
    storage backend's objects, and what was printed and written, oldest
    first. *)
Record World := mkWorld {
  heap : list DataFrame;
  files : Files;
  trace : list event;
}.

(** Whether the backend accepts a write, given what it holds. *)
Class Backend := {
  can_write : Files → string → bool;
}.

(** A computation changes the world and returns or raises; the world
    survives an exception. *)
Definition M (A : Type) : Type := World → result A * World.

Global Instance M_ret : MRet M := fun A a w => (Ok a, w).
Global Instance M_bind : MBind M := fun A B f m w =>
  match m w with
  | (Ok a, w') => f a w'
  | (Raise e, w') => (Raise e, w')
  end.

Definition lift {A} (r : result A) : M A := fun w => (r, w).

(** A reference outside the heap; no run from a heap that holds the
    arguments reaches it. *)
Definition dangling : exception := ValueError "dangling reference".

Definition load (l : loc) : M DataFrame := fun w =>
  match heap w !! l with
  | Some t => (Ok t, w)
  | None => (Raise dangling, w)
  end.

Definition alloc (t : DataFrame) : M loc := fun w =>
  (Ok (length (heap w)), mkWorld (heap w ++ [t]) (files w) (trace w)).

Definition store (l : loc) (t : DataFrame) : M unit := fun w =>
  (Ok (), mkWorld (<[l:=t]> (heap w)) (files w) (trace w)).

Definition print (line : string) : M unit := fun w =>
  (Ok (), mkWorld (heap w) (files w) (trace w ++ [Printed line])).

Section program.
Context `{External} `{Backend}.

Definition write (path text : string) : M unit := fun w =>
  if can_write (files w) path
  then (Ok (), mkWorld (heap w) (<[path:=text]> (files w))
                       (trace w ++ [Written path text]))
  else (Raise (OSError path), w).

(** The pandas calls on objects: a new object for every result, except
    item assignment, which changes its object in place. *)
Definition read_csv (uri : string) : M loc := fun w =>
  match files w !! uri with
  | None => (Raise (OSError uri), w)
  | Some text =>
      match parse_csv text with
      | Some t => alloc t w
      | None => (Raise (ValueError uri), w)
      end
  end.

Definition drop_duplicates (df : loc) : M loc :=
  t ← load df; alloc (Pandas.drop_duplicates t).

Definition copy (df : loc) : M loc :=
  t ← load df; alloc (Pandas.copy t).

Definition merge (left right : loc) (on : string) : M loc :=
  tl ← load left;
  tr ← load right;
  t ← lift (Pandas.merge tl tr on);
  alloc t.

Definition getitem (df : loc) (c : string) : M Series :=
  t ← load df; lift (Pandas.getitem t c).

Definition setitem (df : loc) (c : string) (s : Series) : M unit :=
  t ← load df;
  t' ← lift (Pandas.setitem t c s);
  store df t'.

Definition to_csv (df : loc) (path : string) : M unit :=
  t ← load df; write path (Pandas.to_csv t).

Definition import_gcs_data (import_data : ImportData.t) : M (Named.t loc) :=
  let bucket_name := ImportData.bucket_name import_data in
  let import_data_folder := ImportData.import_data_folder import_data in
  let filename := ImportData.filename import_data in
  let df_name := ImportData.df_name import_data in
  df ← read_csv (gcs_uri bucket_name import_data_folder filename);
  df ← drop_duplicates df;
  mret (Named.mk df_name df).

Definition unpack_step (vars : Locals.t loc) (df : Named.t loc)
  : M (Locals.t loc) :=
  if decide (Named.df_name df = "df_sl") then
    c ← copy (Named.df df);
    mret (Locals.mk (Some c) (Locals.df_it vars) (Locals.df_ic vars))
  else if decide (Named.df_name df = "df_it") then
    c ← copy (Named.df df);
    mret (Locals.mk (Locals.df_sl vars) (Some c) (Locals.df_ic vars))
  else if decide (Named.df_name df = "df_ic") then
    c ← copy (Named.df df);
    mret (Locals.mk (Locals.df_sl vars) (Locals.df_it vars) (Some c))
  else mret vars.

Fixpoint unpack_from (vars : Locals.t loc) (df_list : list (Named.t loc))
  : M (Locals.t loc) :=
  match df_list with
  | [] => mret vars
  | df :: rest => vars' ← unpack_step vars df; unpack_from vars' rest
  end.

(** The statements after the loop. *)
Definition merge_locals (vars : Locals.t loc) : M loc :=
  df_it ← lift (read_local "df_it" (Locals.df_it vars));
  df_ic ← lift (read_local "df_ic" (Locals.df_ic vars));
  df ← merge df_it df_ic "item_category_id";
  df_sl ← lift (read_local "df_sl" (Locals.df_sl vars));
  df ← merge df_sl df "item_id";
  date ← getitem df "date";
  date ← lift (to_datetime date);
  setitem df "date" date;;
  mret df.

Definition merge_data (df_list : list (Named.t loc)) : M loc :=
  vars ← unpack_from Locals.unbound df_list;
  merge_locals vars.

Definition export_data_gcs (df : loc) (export_data : ExportData.t) : M loc :=
  let bucket_name := ExportData.bucket_name export_data in
  let export_data_folder := ExportData.export_data_folder export_data in
  let local_export_folder := ExportData.local_export_folder export_data in
  let filename := ExportData.filename export_data in
  print ("Exporting " +:+ filename +:+ " to GCS");;
  to_csv df (gcs_uri bucket_name export_data_folder filename);;
  print ("Exporting " +:+ filename +:+ " to " +:+ local_export_folder);;
  to_csv df (local_path local_export_folder filename);;
  mret df.

End program.

(** The tables a list of references stands for in a heap. *)
Definition deref (h : list DataFrame) (df : Named.t loc)
  : option (Named.t DataFrame) :=
  t ← h !! Named.df df; Some (Named.mk (Named.df_name df) t).

Definition deref_list (h : list DataFrame) (df_list : list (Named.t loc))
  : option (list (Named.t DataFrame)) :=
  mapM (deref h) df_list.

(** A local holds a reference to the table, or both are unbound. *)
Definition holds (h : list DataFrame) (v : option loc) (t : option DataFrame)
  : Prop :=
  match v, t with
  | Some l, Some t => h !! l = Some t
  | None, None => True
  | _, _ => False
  end.

Definition locals_hold (h : list DataFrame) (vars : Locals.t loc)
    (tables : Locals.t DataFrame) : Prop :=
  holds h (Locals.df_sl vars) (Locals.df_sl tables)
  ∧ holds h (Locals.df_it vars) (Locals.df_it tables)
  ∧ holds h (Locals.df_ic vars) (Locals.df_ic tables).

(** The world with new objects at the end of its heap and nothing else
    changed. *)
Definition grown (w : World) (new : list DataFrame) : World :=
  mkWorld (heap w ++ new) (files w) (trace w).


(** The two destinations of an export, as the specification composes
    them. *)
Definition cloud_destination (export_data : ExportData.t) : string :=
  "gcs://" +:+ ExportData.bucket_name export_data +:+ "/"
  +:+ ExportData.export_data_folder export_data +:+ "/"
  +:+ ExportData.filename export_data.

Definition local_destination (export_data : ExportData.t) : string :=
  ExportData.local_export_folder export_data +:+ "/"
  +:+ ExportData.filename export_data.

End Ref.

(** ** Words of the specification *)

(** The table of the last entry of the list, in list order, that bears a
    given logical name. *)
Definition last_named {T} (name : string) (df_list : list (Named.t T))
  : option T :=
  Named.df <$> last (filter (fun e => Named.df_name e = name) df_list).

(** The three logical names the merge expects. *)
Definition expected_names : list string := ["df_sl"; "df_it"; "df_ic"].

(** A logical name no entry of the list bears. *)
Definition absent {T} (name : string) (df_list : list (Named.t T)) : Prop :=
  name ∉ map Named.df_name df_list.

(** The merge as the specification words it: items joined to categories on
    the category key, the sales log joined to that on the item key, the
    date column converted. *)
Definition convert_date `{External} (t : DataFrame) : result DataFrame :=
  date ← getitem t "date";
  date ← to_datetime date;
  setitem t "date" date.

Definition merge_spec `{External} (df_sl df_it df_ic : DataFrame)
  : result DataFrame :=
  items ← merge df_it df_ic "item_category_id";
  sales ← merge df_sl items "item_id";
  convert_date sales.

(** No two rows of the table agree on the column, however a join compares
    its cells: as they are, or as floats. *)
Definition unique_on (t : DataFrame) (c : string) : Prop :=
  ∀ s, getitem t c = Ok s → NoDup (map as_float_key s).

(** An output row [o] stems from the sales-log row [l], whose date cell
    stands at position [d]: the date cell of [o] is the date cell of [l]
    converted under the format [fmt], and every other cell of [l] stands
    unchanged in [o]. *)
Definition stems_from `{External} (fmt : option string) (d : nat) (l o : Row)
  : Prop :=
  to_datetime_value fmt (cell l d) = Ok (cell o d)
  ∧ ∀ k, k < length l → k ≠ d → cell o k = cell l k.

(** The cells a join appends to a left row: the missing value of every
    column of the right table but its key at position [j], or the cells of
    a row of the right table but its key, those of the integer columns
    converted to floats when the join is [promoting]. *)
Definition appended_from (promoting : bool) (right : DataFrame) (j : nat)
    (x : Row) : Prop :=
  x = missing_row right j
  ∨ ∃ r, r ∈ rows right ∧ x = carried promoting right j r.

(** ** Sample inputs *)

(** An environment.  Its parser knows two dates in the format it infers
    for them, and one of them in another format as well; it reads and
    prints the floats that are whole numbers; it reads one CSV text, a
    table with a repeated row; its merge refuses to compare texts with
    numbers, and suffixes that make two labels one. *)
Definition sample_items_text : string :=
  "item_id,item_category_id
1,10
1,10
2,20
".

Definition sample_items_read : DataFrame :=
  mkDataFrame ["item_id"; "item_category_id"]
    [[Int 1; Int 10]; [Int 1; Int 10]; [Int 2; Int 20]].

Definition first_day : Z := 1356998400000000000.
Definition second_day : Z := 1357084800000000000.

Definition sample_format (s : Series) : option string :=
  match filter (fun v => v ≠ NaN ∧ v ≠ NaT) s with
  | Str text :: _ =>
      if decide (text = "2013-01-01" ∨ text = "2013-01-02")
      then Some "%Y-%m-%d"
      else if decide (text = "01/02/2013") then Some "%m/%d/%Y"
      else None
  | _ => None
  end.

Definition sample_dates (fmt : option string) (text : string) : parsed :=
  if decide (text = "") then Missing
  else if decide (text = "2013-01-01" ∧ fmt ≠ Some "%m/%d/%Y") then At first_day
  else if decide (text = "2013-01-02" ∧ fmt ≠ Some "%m/%d/%Y") then At second_day
  else if decide (text = "01/02/2013" ∧ fmt ≠ Some "%Y-%m-%d") then At second_day
  else Rejected.

Definition whole_part (f : float64) : option Z :=
  match f with
  | S754_zero _ => Some 0%Z
  | S754_finite s m e =>
      Some (if s then - Z.shiftl (Z.pos m) e else Z.shiftl (Z.pos m) e)%Z
  | _ => None
  end.

Definition sample_float_date (f : float64) : parsed :=
  match f with
  | S754_nan => Missing
  | _ => from_option At Rejected (whole_part f)
  end.

Definition sample_format_float (f : float64) : string :=
  match f with
  | S754_nan => ""
  | S754_infinity s => if s then "-inf" else "inf"
  | _ => from_option (fun z => pretty z +:+ ".0") "" (whole_part f)
  end.

Definition sample_format_datetime (t : Z) : string :=
  if decide (t = first_day) then "2013-01-01"
  else if decide (t = second_day) then "2013-01-02"
  else pretty t.

Definition holds_text (s : Series) : bool :=
  existsb (fun v => match v with Str _ => true | _ => false end) s.

Definition holds_numbers (s : Series) : bool :=
  existsb (fun v => match v with Int _ | Float _ => true | _ => false end) s.

Definition key_cells (t : DataFrame) (on : string) : Series :=
  match positions on (columns t) with
  | i :: _ => column_cells (rows t) i
  | [] => []
  end.

(** The labels that repeat an earlier one, and whether the suffixes made
    a label repeat that did not before. *)
Fixpoint repeats (seen cols : list string) : list bool :=
  match cols with
  | [] => []
  | c :: cols' => bool_decide (c ∈ seen) :: repeats (c :: seen) cols'
  end.

Definition new_repeat (before after : list string) : bool :=
  existsb (fun ba => negb ba.1 && ba.2)
          (zip (repeats [] before) (repeats [] after)).

Definition sample_merge_check (left right : DataFrame) (on : string)
  : option exception :=
  let lkeys := key_cells left on in
  let rkeys := key_cells right on in
  let others := filter (fun c => c ≠ on) (columns right) in
  if holds_text lkeys && negb (holds_text rkeys) && holds_numbers rkeys
     || holds_text rkeys && negb (holds_text lkeys) && holds_numbers lkeys
  then Some (ValueError on)
  else if new_repeat (columns left)
                     (map (suffixed "_x" (columns right) on) (columns left))
          || new_repeat others (map (suffixed "_y" (columns left) on) others)
  then Some (MergeError on)
  else None.

Definition sample_external : External := {|
  datetime_format := sample_format;
  parse_datetime := sample_dates;
  float_to_datetime := sample_float_date;
  format_datetime := sample_format_datetime;
  format_float := sample_format_float;
  parse_csv text :=
    if decide (text = sample_items_text) then Some sample_items_read else None;
  merge_check := sample_merge_check;
|}.

(** Backends: one that accepts every write, one that accepts cloud URIs
    only. *)
Definition open_backend : Ref.Backend := {|
  Ref.can_write _ _ := true;
|}.

Definition cloud_only_backend : Ref.Backend := {|
  Ref.can_write _ path := String.prefix "gcs://" path;
|}.

(** The three tables of the end-to-end example. *)
Definition sample_sl : DataFrame :=
  mkDataFrame ["item_id"; "date"; "qty"]
    [[Int 1; Str "2013-01-01"; Int 3];
     [Int 2; Str "2013-01-02"; Int 1];
     [Int 9; Str "2013-01-02"; Int 5]].

Definition sample_it : DataFrame :=
  mkDataFrame ["item_id"; "item_category_id"]
    [[Int 1; Int 10]; [Int 2; Int 20]].

Definition sample_ic : DataFrame :=
  mkDataFrame ["item_category_id"; "name"]
    [[Int 10; Str "toys"]; [Int 20; Str "books"]].

Definition sample_list : list (Named.t DataFrame) :=
  [Named.mk "df_sl" sample_sl; Named.mk "df_it" sample_it;
   Named.mk "df_ic" sample_ic].

(** Their merge: item 9 stands in no category, so that the category
    numbers have become floats. *)
Definition sample_out : DataFrame :=
  mkDataFrame ["item_id"; "date"; "qty"; "item_category_id"; "name"]
    [[Int 1; Timestamp first_day; Int 3; Float (float_of_int 10); Str "toys"];
     [Int 2; Timestamp second_day; Int 1; Float (float_of_int 20); Str "books"];
     [Int 9; Timestamp second_day; Int 5; NaN; NaN]].

(** An items table in which item 2 stands in two categories. *)
Definition repeated_it : DataFrame :=
  mkDataFrame ["item_id"; "item_category_id"]
    [[Int 1; Int 10]; [Int 2; Int 20]; [Int 2; Int 30]].

Definition repeated_list : list (Named.t DataFrame) :=
  [Named.mk "df_sl" sample_sl; Named.mk "df_it" repeated_it;
   Named.mk "df_ic" sample_ic].

(** A list without sales log whose items table lacks the category key. *)
Definition keyless_it : DataFrame :=
  mkDataFrame ["item_id"] [[Int 1]; [Int 2]].

Definition keyless_list : list (Named.t DataFrame) :=
  [Named.mk "df_it" keyless_it; Named.mk "df_ic" sample_ic].

(** A list without sales log, the other two tables in order. *)
Definition no_sales_list : list (Named.t DataFrame) :=
  [Named.mk "df_it" sample_it; Named.mk "df_ic" sample_ic].

(** A sales log without date column, and an items table with one. *)
Definition undated_sl : DataFrame :=
  mkDataFrame ["item_id"; "qty"] [[Int 1; Int 3]].

Definition dated_it : DataFrame :=
  mkDataFrame ["item_id"; "item_category_id"; "date"]
    [[Int 1; Int 10; Str "2013-01-01"]].

Definition undated_list : list (Named.t DataFrame) :=
  [Named.mk "df_sl" undated_sl; Named.mk "df_it" dated_it;
   Named.mk "df_ic" sample_ic].

(** A list with an entry of another name and two sales logs. *)
Definition crowded_list : list (Named.t DataFrame) :=
  [Named.mk "df_sl" undated_sl; Named.mk "df_it" sample_it;
   Named.mk "df_test" keyless_it; Named.mk "df_ic" sample_ic;
   Named.mk "df_sl" sample_sl].


Definition sample_export : ExportData.t :=
  ExportData.mk "sales-bucket" "merged" "out" "merged.csv".

Definition sample_files : Files :=
  {[ "gcs://sales-bucket/raw/items.csv" := sample_items_text ]}.

Definition sample_world : Ref.World :=
  Ref.mkWorld [sample_sl; sample_it; sample_ic] sample_files [].

Definition sample_refs : list (Named.t Ref.loc) :=
  [Named.mk "df_sl" 0; Named.mk "df_it" 1; Named.mk "df_ic" 2].

Definition repeated_out : DataFrame :=
  mkDataFrame ["item_id"; "date"; "qty"; "item_category_id"; "name"]
    [[Int 1; Timestamp first_day; Int 3; Float (float_of_int 10); Str "toys"];
     [Int 2; Timestamp second_day; Int 1; Float (float_of_int 20); Str "books"];
     [Int 2; Timestamp second_day; Int 1; Float (float_of_int 30); NaN];
     [Int 9; Timestamp second_day; Int 5; NaN; NaN]].

Definition undated_out : DataFrame :=
  mkDataFrame ["item_id"; "qty"; "item_category_id"; "date"; "name"]
    [[Int 1; Int 3; Int 10; Timestamp first_day; Str "toys"]].

Definition merged_world : Ref.World :=
  Ref.mkWorld [sample_out] sample_files [].

(** The CSV text of the sample output. *)
Definition sample_out_text : string :=
  "item_id,date,qty,item_category_id,name
1,2013-01-01,3,10.0,toys
2,2013-01-02,1,20.0,books
9,2013-01-02,5,,
".

(** ** Further words and sample inputs *)

(** A cell of a date-typed column: a timestamp, or the missing one. *)
Definition is_datetime (v : value) : Prop :=
  v = NaT ∨ ∃ t, v = Timestamp t.

(** An environment whose CSV parser reads a text without repeated rows. *)
Definition distinct_items_text : string :=
  "item_id,item_category_id
1,10
2,20
".

Definition distinct_external : External := {|
  datetime_format := sample_format;
  parse_datetime := sample_dates;
  float_to_datetime := sample_float_date;
  format_datetime := sample_format_datetime;
  format_float := sample_format_float;
  parse_csv text :=
    if decide (text = distinct_items_text) then Some sample_it else None;
  merge_check := sample_merge_check;
|}.


(** A backend that refuses every write. *)
Definition closed_backend : Ref.Backend := {|
  Ref.can_write _ _ := false;
|}.

(** The sample tables with a date column in the items table as well. *)
Definition clashing_list : list (Named.t DataFrame) :=
  [Named.mk "df_sl" sample_sl; Named.mk "df_it" dated_it;
   Named.mk "df_ic" sample_ic].

(** A sales log whose second date is written in another format than the
    first: the parser reads it alone, not under the format of the first. *)
Definition mixed_sl : DataFrame :=
  mkDataFrame ["item_id"; "date"; "qty"]
    [[Int 1; Str "2013-01-01"; Int 3];
     [Int 2; Str "01/02/2013"; Int 1]].

Definition mixed_list : list (Named.t DataFrame) :=
  [Named.mk "df_sl" mixed_sl; Named.mk "df_it" sample_it;
   Named.mk "df_ic" sample_ic].

Definition mixed_sales : DataFrame :=
  mkDataFrame ["item_id"; "date"; "qty"; "item_category_id"; "name"]
    [[Int 1; Str "2013-01-01"; Int 3; Int 10; Str "toys"];
     [Int 2; Str "01/02/2013"; Int 1; Int 20; Str "books"]].



(** The sample list in the opposite order. *)
Definition reversed_list : list (Named.t DataFrame) :=
  [Named.mk "df_ic" sample_ic; Named.mk "df_it" sample_it;
   Named.mk "df_sl" sample_sl].

(** A world whose heap holds the three sample tables at other places, and
    the references to them. *)
Definition shuffled_world : Ref.World :=
  Ref.mkWorld [sample_ic; sample_sl; sample_it] sample_files [].

Definition shuffled_refs : list (Named.t Ref.loc) :=
  [Named.mk "df_sl" 1; Named.mk "df_it" 2; Named.mk "df_ic" 0].

(** The join of the sample items and categories. *)
Definition sample_items : DataFrame :=
  mkDataFrame ["item_id"; "item_category_id"; "name"]
    [[Int 1; Int 10; Str "toys"]; [Int 2; Int 20; Str "books"]].

(** ** Tactics *)

(** [c +:+ suffix = text] is absurd when [text] does not end in the suffix;
    the text is peeled one character at a time. *)
Ltac absurd_suffix H :=
  first
    [ discriminate H
    | match type of H with
      | (?c +:+ ?suffix) = _ =>
          let a := fresh "a" in
          let c' := fresh "c" in
          destruct c as [|a c'];
          [ change (EmptyString +:+ suffix) with suffix in H; discriminate H
          | change (String a c' +:+ suffix) with (String a (c' +:+ suffix)) in H;
            first [ discriminate H | injection H as _ H; absurd_suffix H ] ]
      end ].

(** * Properties *)

Section unpacking.
Context {T : Type}.
Implicit Types (df_list : list (Named.t T)) (e : Named.t T).

Lemma last_named_snoc name df_list e :
  last_named name (df_list ++ [e]) =
  if decide (Named.df_name e = name) then Some (Named.df e)
  else last_named name df_list.
Proof.
  unfold last_named. rewrite filter_app, filter_cons, filter_nil.
  destruct (decide (Named.df_name e = name)); simpl.
  - by rewrite last_snoc.
  - by rewrite app_nil_r.
Qed.

Lemma last_named_absent name df_list :
  absent name df_list ↔ last_named name df_list = None.
Proof.
  unfold absent. induction df_list as [|e l IH] using rev_ind.
  - split; [done|]. intros _. apply not_elem_of_nil.
  - rewrite last_named_snoc, map_app, elem_of_app. simpl.
    rewrite list_elem_of_singleton.
    destruct (decide (Named.df_name e = name)) as [->|Hne].
    + split; [intros []; by right | done].
    + rewrite <- IH. split.
      * intros Hn Hin. apply Hn. by left.
      * intros Hn [Hin| ->]; [by apply Hn | done].
Qed.

Lemma last_named_present name df_list :
  ¬ absent name df_list → is_Some (last_named name df_list).
Proof.
  rewrite last_named_absent. destruct (last_named name df_list); [eauto | done].
Qed.

Lemma last_named_insert_other name df_list1 e df_list2 :
  Named.df_name e ≠ name →
  last_named name (df_list1 ++ e :: df_list2) =
  last_named name (df_list1 ++ df_list2).
Proof.
  intros Hne. unfold last_named.
  rewrite !filter_app, filter_cons. by destruct (decide _).
Qed.

End unpacking.

Section merger.
Context `{External}.
Implicit Types (df_list : list (Named.t DataFrame)).

Lemma unpack_snoc df_list e :
  unpack (df_list ++ [e]) = unpack_step (unpack df_list) e.
Proof. unfold unpack. by rewrite fold_left_app. Qed.

(** The loop leaves in each local the table of the last entry bearing its
    name, and leaves it unbound when there is none. *)
Lemma unpack_last_named df_list :
  unpack df_list =
  Locals.mk (last_named "df_sl" df_list) (last_named "df_it" df_list)
            (last_named "df_ic" df_list).
Proof.
  induction df_list as [|e l IH] using rev_ind; [done|].
  rewrite unpack_snoc, IH, !last_named_snoc. unfold unpack_step, copy.
  repeat (destruct (decide _) as [?|?]; simpl); try congruence; done.
Qed.

Lemma last_named_overwritten {T} name (l1 l2 l3 : list (Named.t T)) e e' :
  Named.df_name e' = Named.df_name e →
  last_named name (l1 ++ e :: l2 ++ e' :: l3) =
  last_named name (l1 ++ l2 ++ e' :: l3).
Proof.
  intros Hsame. destruct (decide (Named.df_name e = name)) as [He|He].
  - unfold last_named.
    rewrite !filter_app, !filter_cons, (filter_app _ l2), filter_cons.
    rewrite !decide_True by congruence.
    rewrite (app_assoc (filter _ l1)), (app_comm_cons (filter _ l2)).
    rewrite (app_assoc (filter _ l1) (e :: _)).
    by rewrite !last_app_cons.
  - by apply last_named_insert_other.
Qed.

(** C9. [merge_data] depends on its list only through the last entry
    bearing each of the three expected names: entries with any other name
    are ignored wherever they stand, and an entry followed later by one
    with the same name is overwritten, so the table joined is that of the
    last such entry in list order. *)
Theorem merge_data_last_entry_wins :
  (∀ df_list,
     merge_data df_list =
     merge_locals (Locals.mk (last_named "df_sl" df_list)
                             (last_named "df_it" df_list)
                             (last_named "df_ic" df_list)))
  ∧ (∀ df_list1 e df_list2,
       Named.df_name e ∉ expected_names →
       merge_data (df_list1 ++ e :: df_list2) = merge_data (df_list1 ++ df_list2))
  ∧ (∀ df_list1 e df_list2 e' df_list3,
       Named.df_name e' = Named.df_name e →
       merge_data (df_list1 ++ e :: df_list2 ++ e' :: df_list3) =
       merge_data (df_list1 ++ df_list2 ++ e' :: df_list3)).
Proof.
  split_and!.
  - intros df_list. unfold merge_data. by rewrite unpack_last_named.
  - intros l1 e l2 Hother. unfold merge_data. rewrite !unpack_last_named.
    unfold expected_names in Hother.
    rewrite !not_elem_of_cons in Hother. destruct Hother as (?&?&?&_).
    by rewrite !(last_named_insert_other _ l1 e l2).
  - intros l1 e l2 e' l3 Hsame. unfold merge_data. rewrite !unpack_last_named.
    by rewrite !(last_named_overwritten _ l1 l2 l3 e e').
Qed.

End merger.

Section missing_names.
Context `{External}.
Implicit Types (df_list : list (Named.t DataFrame)).

Lemma merge_data_unbound_it df_list :
  absent "df_it" df_list →
  merge_data df_list = Raise (UnboundLocalError "df_it").
Proof.
  intros Hit%last_named_absent.
  unfold merge_data. rewrite unpack_last_named. unfold merge_locals. simpl.
  by rewrite Hit.
Qed.

Lemma merge_data_unbound_ic df_list :
  ¬ absent "df_it" df_list → absent "df_ic" df_list →
  merge_data df_list = Raise (UnboundLocalError "df_ic").
Proof.
  intros [it Hit]%last_named_present Hic%last_named_absent.
  unfold merge_data. rewrite unpack_last_named. unfold merge_locals. simpl.
  by rewrite Hit, Hic.
Qed.

Lemma merge_data_unbound_sl df_list it ic :
  last_named "df_it" df_list = Some it →
  last_named "df_ic" df_list = Some ic →
  absent "df_sl" df_list →
  merge_data df_list =
  match merge it ic "item_category_id" with
  | Ok _ => Raise (UnboundLocalError "df_sl")
  | Raise e => Raise e
  end.
Proof.
  intros Hit Hic Hsl%last_named_absent.
  unfold merge_data. rewrite unpack_last_named. unfold merge_locals. simpl.
  rewrite Hit, Hic, Hsl. simpl.
  by destruct (merge it ic "item_category_id").
Qed.

(** C3 (amended). When one of the three expected names is absent from the
    list, [merge_data] raises and returns no table.  The exception is the
    unbound local [df_it] or [df_ic] at the first join when the items or
    the categories table is absent; when only the sales log is absent the
    first join runs, and the exception is the unbound local [df_sl] at the
    second join if the first join succeeded, and the first join's own
    exception otherwise. *)
Theorem merge_data_missing_name_fails df_list :
  (∃ name, name ∈ expected_names ∧ absent name df_list) →
  fails (merge_data df_list)
  ∧ (absent "df_it" df_list →
     merge_data df_list = Raise (UnboundLocalError "df_it"))
  ∧ (¬ absent "df_it" df_list → absent "df_ic" df_list →
     merge_data df_list = Raise (UnboundLocalError "df_ic"))
  ∧ (∀ it ic,
       last_named "df_it" df_list = Some it →
       last_named "df_ic" df_list = Some ic →
       merge_data df_list =
       match merge it ic "item_category_id" with
       | Ok _ => Raise (UnboundLocalError "df_sl")
       | Raise e => Raise e
       end).
Proof.
  intros (name & Hname & Habs).
  assert (Hsl : ∀ it ic,
    last_named "df_it" df_list = Some it →
    last_named "df_ic" df_list = Some ic → absent "df_sl" df_list).
  { intros it ic Hit Hic. unfold expected_names in Hname.
    rewrite !elem_of_cons in Hname.
    destruct Hname as [->|[->|[->|Hname]]]; [done | | |by apply elem_of_nil in Hname].
    - apply last_named_absent in Habs. congruence.
    - apply last_named_absent in Habs. congruence. }
  split_and!.
  - destruct (decide (absent "df_it" df_list)) as [Hit|Hit].
    { eexists. by apply merge_data_unbound_it. }
    destruct (decide (absent "df_ic" df_list)) as [Hic|Hic].
    { eexists. by apply merge_data_unbound_ic. }
    apply last_named_present in Hit as [it Hit].
    apply last_named_present in Hic as [ic Hic].
    rewrite (merge_data_unbound_sl df_list it ic) by eauto.
    destruct (merge it ic "item_category_id"); eexists; done.
  - apply merge_data_unbound_it.
  - apply merge_data_unbound_ic.
  - intros it ic Hit Hic. apply merge_data_unbound_sl; eauto.
Qed.

End missing_names.

(** ** Facts about the pandas operations *)

Section columns.
Implicit Types (c : string) (cols : list string) (r : Row).

Lemma elem_of_positions_from n c cols i :
  i ∈ positions_from n c cols ↔ ∃ k, i = n + k ∧ cols !! k = Some c.
Proof.
  revert n. induction cols as [|c' cols IH]; intros n; simpl.
  - split; [intros []%elem_of_nil | intros (k & _ & Hk); done].
  - assert (Htail : (∃ k, i = S n + k ∧ cols !! k = Some c) ↔
                    (∃ k, i = n + S k ∧ cols !! k = Some c)).
    { split; intros (k & -> & Hk); exists k; split; [lia|done|lia|done]. }
    destruct (decide (c' = c)) as [->|Hne].
    + rewrite elem_of_cons, IH, Htail. split.
      * intros [->|(k & -> & Hk)]; [exists 0 | exists (S k)]; split; (lia || done).
      * intros ([|k] & -> & Hk); [left; lia | right; eauto].
    + rewrite IH, Htail. split.
      * intros (k & -> & Hk). exists (S k). done.
      * intros ([|k] & -> & Hk); [simpl in Hk; congruence | eauto].
Qed.

Lemma elem_of_positions c cols i :
  i ∈ positions c cols ↔ cols !! i = Some c.
Proof.
  unfold positions. rewrite elem_of_positions_from. split.
  - by intros (k & -> & Hk).
  - intros Hi. by exists i.
Qed.

Lemma column_index_Ok c cols i :
  column_index c cols = Ok i →
  positions c cols = [i]
  ∧ cols !! i = Some c
  ∧ ∀ k, cols !! k = Some c → k = i.
Proof.
  unfold column_index. intros Hi.
  destruct (positions c cols) as [|i' [|??]] eqn:Hpos; simplify_eq.
  split; [done|]. split.
  - apply elem_of_positions. rewrite Hpos. by left.
  - intros k Hk%elem_of_positions. rewrite Hpos in Hk.
    by apply list_elem_of_singleton in Hk.
Qed.

Lemma column_index_lt c cols i :
  column_index c cols = Ok i → i < length cols.
Proof. intros (_ & Hi & _)%column_index_Ok. by eapply lookup_lt_Some. Qed.

Lemma cell_app_l r r' i : i < length r → cell (r ++ r') i = cell r i.
Proof. intros Hi. unfold cell. by rewrite lookup_app_l. Qed.

Lemma cell_insert_eq r i v : i < length r → cell (<[i:=v]> r) i = v.
Proof. intros Hi. unfold cell. by rewrite list_lookup_insert_eq. Qed.

Lemma cell_insert_ne r i k v : i ≠ k → cell (<[i:=v]> r) k = cell r k.
Proof. intros Hi. unfold cell. by rewrite list_lookup_insert_ne. Qed.

(** A label that carries neither suffix keeps its place through a merge:
    it stood on one side only. *)
Lemma suffixed_plain suffix others on c target :
  (∀ c', c' +:+ suffix ≠ target) →
  suffixed suffix others on c = target →
  c = target ∧ (target = on ∨ target ∉ others).
Proof.
  intros Hplain. unfold suffixed.
  destruct (decide (c ≠ on ∧ c ∈ others)) as [?|Hno]; intros Heq.
  - by apply Hplain in Heq.
  - subst c. split; [done|].
    destruct (decide (target = on)); [by left|right]. naive_solver.
Qed.

Lemma merged_columns_lookup lcols rcols on j p c :
  (∀ c', c' +:+ "_x" ≠ c) → (∀ c', c' +:+ "_y" ≠ c) → c ≠ on →
  merged_columns lcols rcols on j !! p = Some c →
  (lcols !! p = Some c ∧ c ∉ rcols)
  ∨ (length lcols ≤ p ∧ delete j rcols !! (p - length lcols) = Some c
     ∧ c ∉ lcols).
Proof.
  intros Hx Hy Hon. unfold merged_columns.
  rewrite lookup_app_Some, length_map. intros [Hl|[Hlen Hr]].
  - left. change (map ?f ?l) with (f <$> l) in Hl.
    apply list_lookup_fmap_Some in Hl as (c0 & Hc0 & Heq).
    symmetry in Hc0. apply suffixed_plain in Hc0 as [-> [?|?]]; done.
  - right. split; [done|]. change (map ?f ?l) with (f <$> l) in Hr.
    apply list_lookup_fmap_Some in Hr as (c0 & Hc0 & Heq).
    symmetry in Hc0. apply suffixed_plain in Hc0 as [-> [?|?]]; done.
Qed.

End columns.

Lemma date_not_suffixed_x c : c +:+ "_x" ≠ "date".
Proof. intros Hc. absurd_suffix Hc. Qed.

Lemma date_not_suffixed_y c : c +:+ "_y" ≠ "date".
Proof. intros Hc. absurd_suffix Hc. Qed.

Lemma item_id_not_suffixed_x c : c +:+ "_x" ≠ "item_id".
Proof. intros Hc. absurd_suffix Hc. Qed.

Lemma item_id_not_suffixed_y c : c +:+ "_y" ≠ "item_id".
Proof. intros Hc. absurd_suffix Hc. Qed.

Section joins.
Context `{External}.
Implicit Types (left right m : DataFrame) (on : string) (l r : Row).

Lemma merge_Ok left right on m :
  merge left right on = Ok m →
  ∃ i j,
    column_index on (columns left) = Ok i
    ∧ column_index on (columns right) = Ok j
    ∧ merge_check left right on = None
    ∧ columns m = merged_columns (columns left) (columns right) on j
    ∧ rows m = joined_rows i j left right.
Proof.
  unfold merge. intros Hm.
  destruct (column_index on (columns right)) as [j|] eqn:Hj; [|done].
  destruct (column_index on (columns left)) as [i|] eqn:Hi; [|done].
  simpl in Hm. destruct (merge_check left right on) eqn:Hcheck; [done|].
  injection Hm as <-. by exists i, j.
Qed.

Lemma joined_rows_flat_map i j left right :
  ∃ floats,
    joined_rows i j left right =
    flat_map (join_row floats (some_unmatched i j left right) i j right)
             (rows left).
Proof. by eexists. Qed.

Lemma join_row_length floats promoting i j right l :
  length (join_row floats promoting i j right l) =
  Nat.max 1 (length (partners floats (cell l i) j (rows right))).
Proof.
  unfold join_row. destruct (partners _ _ _ _) as [|r ms]; [done|].
  rewrite length_map. simpl. lia.
Qed.

(** Every row a join makes of a left row begins with that row and ends
    with the cells of a right row of the same key, or with missing
    values. *)
Lemma elem_of_join_row floats promoting i j right l o :
  o ∈ join_row floats promoting i j right l →
  ∃ x, o = l ++ x
       ∧ (x = missing_row right j
          ∨ ∃ r, r ∈ rows right
                 ∧ key_form floats (cell r j) = key_form floats (cell l i)
                 ∧ x = carried promoting right j r).
Proof.
  unfold join_row. destruct (partners _ _ _ _) as [|r ms] eqn:Hp.
  - intros ->%list_elem_of_singleton. eauto.
  - rewrite <- Hp. change (map ?f ?xs) with (f <$> xs).
    intros (r' & -> & Hr')%list_elem_of_fmap.
    apply list_elem_of_filter in Hr' as [Hkey Hin].
    exists (carried promoting right j r'). split; [done|]. right. eauto.
Qed.

Lemma length_missing_row right j :
  j < length (columns right) →
  length (missing_row right j) = length (columns right) - 1.
Proof.
  intros Hj. unfold missing_row.
  rewrite length_delete, length_map, length_seq; [done|].
  apply lookup_lt_is_Some. by rewrite length_map, length_seq.
Qed.

Lemma length_promote_row right r : length (promote_row right r) = length r.
Proof. unfold promote_row. by rewrite length_imap. Qed.

Lemma length_carried promoting right j r :
  j < length r → length (carried promoting right j r) = length r - 1.
Proof.
  intros Hj. unfold carried. rewrite length_delete.
  - destruct promoting; [by rewrite length_promote_row | done].
  - apply lookup_lt_is_Some.
    destruct promoting; [by rewrite length_promote_row | done].
Qed.

Lemma partners_none floats k j rrows :
  key_form floats k ∉ map (fun r => key_form floats (cell r j)) rrows →
  partners floats k j rrows = [].
Proof.
  unfold partners. induction rrows as [|r rrows IH]; simpl; [done|].
  intros [Hr Hrest]%not_elem_of_cons. rewrite filter_cons.
  destruct (decide (key_form floats (cell r j) = key_form floats k));
    [done|]. by apply IH.
Qed.

Lemma partners_unique floats k j rrows :
  NoDup (map (fun r => key_form floats (cell r j)) rrows) →
  length (partners floats k j rrows) ≤ 1.
Proof.
  induction rrows as [|r rrows IH]; simpl; [unfold partners; simpl; lia|].
  intros [Hr Hnd]%NoDup_cons. unfold partners. rewrite filter_cons.
  destruct (decide (key_form floats (cell r j) = key_form floats k))
    as [Heq|_]; [|by apply IH].
  simpl. fold (partners floats k j rrows).
  rewrite partners_none; [done|]. by rewrite <- Heq.
Qed.

(** Keys that differ as floats differ however they are compared. *)
Lemma NoDup_key_form floats j rrows :
  NoDup (map as_float_key (column_cells rrows j)) →
  NoDup (map (fun r => key_form floats (cell r j)) rrows).
Proof.
  unfold column_cells. rewrite map_map. destruct floats; simpl; [done|].
  change (map ?f ?xs) with (f <$> xs).
  rewrite (list_fmap_compose (fun r => cell r j) as_float_key).
  apply NoDup_fmap_1.
Qed.

Lemma length_flat_map_ones {A B} (f : A → list B) (xs : list A) :
  (∀ x, x ∈ xs → length (f x) = 1) → length (flat_map f xs) = length xs.
Proof.
  induction xs as [|x xs IH]; simpl; [done|]. intros Hone.
  rewrite length_app, Hone, IH; [done | | by left].
  intros x' Hx'. apply Hone. by right.
Qed.

(** The number of rows of a left join: every left row counts once, or as
    often as it has partners. *)
Lemma merge_row_count left right on m i j :
  merge left right on = Ok m →
  column_index on (columns left) = Ok i →
  column_index on (columns right) = Ok j →
  length (rows m) =
  sum_list (map (fun l => Nat.max 1 (length (partners
                   (key_floats i j left right) (cell l i) j (rows right))))
                (rows left)).
Proof.
  intros (i' & j' & Hi' & Hj' & _ & _ & ->)%merge_Ok Hi Hj.
  assert (i' = i) as -> by congruence. assert (j' = j) as -> by congruence.
  unfold joined_rows.
  generalize (some_unmatched i j left right) (key_floats i j left right).
  intros promoting floats.
  induction (rows left) as [|l ls IH]; simpl; [done|].
  by rewrite length_app, join_row_length, IH.
Qed.

(** A left join on a key that is unique on the right keeps the number of
    rows of the left table. *)
Lemma merge_unique_row_count left right on m :
  merge left right on = Ok m →
  unique_on right on →
  length (rows m) = length (rows left).
Proof.
  intros (i & j & Hi & Hj & _ & _ & ->)%merge_Ok Huniq.
  destruct (joined_rows_flat_map i j left right) as (floats & ->).
  apply length_flat_map_ones. intros l _.
  rewrite join_row_length.
  assert (NoDup (map as_float_key (column_cells (rows right) j))) as Hnd.
  { apply Huniq. unfold getitem. by rewrite Hj. }
  apply (NoDup_key_form floats) in Hnd.
  pose proof (partners_unique floats (cell l i) j (rows right) Hnd). lia.
Qed.

End joins.

Section dates.
Context `{External}.
Implicit Types (s : Series) (t out : DataFrame).

Lemma to_datetime_with_Ok fmt s s' :
  to_datetime_with fmt s = Ok s' ↔
  Forall2 (fun v v' => to_datetime_value fmt v = Ok v') s s'.
Proof.
  revert s'. induction s as [|v s IH]; intros s'; simpl.
  - split; [by intros [= <-] | by intros ->%Forall2_nil_inv_l].
  - destruct (to_datetime_value fmt v) as [v'|e] eqn:Hv; simpl.
    + destruct (to_datetime_with fmt s) as [s''|e] eqn:Hs; simpl.
      * split.
        -- intros [= <-]. constructor; [done|]. by apply IH.
        -- intros (v2 & s2 & Hv2 & Hs2 & ->)%Forall2_cons_inv_l.
           apply IH in Hs2. congruence.
      * split; [done|].
        intros (v2 & s2 & Hv2 & Hs2 & ->)%Forall2_cons_inv_l.
        apply IH in Hs2. congruence.
    + split; [done|].
      intros (v2 & s2 & Hv2 & Hs2 & ->)%Forall2_cons_inv_l. congruence.
Qed.

Lemma to_datetime_Ok s s' :
  to_datetime s = Ok s' ↔
  Forall2 (fun v v' => to_datetime_value (datetime_format s) v = Ok v') s s'.
Proof. apply to_datetime_with_Ok. Qed.

Lemma to_datetime_length s s' : to_datetime s = Ok s' → length s' = length s.
Proof. intros Hs%to_datetime_Ok. symmetry. by eapply Forall2_length. Qed.

Lemma to_datetime_with_succeeds fmt s :
  Forall (fun v => succeeds (to_datetime_value fmt v)) s →
  succeeds (to_datetime_with fmt s).
Proof.
  induction 1 as [|v s [v' Hv] _ [s' Hs]]; simpl; [by eexists|].
  rewrite Hv, Hs. by eexists.
Qed.

Lemma to_datetime_succeeds s :
  Forall (fun v => succeeds (to_datetime_value (datetime_format s) v)) s →
  succeeds (to_datetime s).
Proof. apply to_datetime_with_succeeds. Qed.

(** Converting the date column keeps the labels and rewrites one cell of
    every row, under the format inferred for the column. *)
Lemma convert_date_Ok t out :
  convert_date t = Ok out →
  ∃ p,
    column_index "date" (columns t) = Ok p
    ∧ columns out = columns t
    ∧ Forall2 (fun r o =>
                 ∃ v, to_datetime_value
                        (datetime_format (column_cells (rows t) p)) (cell r p)
                      = Ok v
                      ∧ o = <[p:=v]> r)
              (rows t) (rows out).
Proof.
  unfold convert_date, getitem. intros Hout.
  destruct (column_index "date" (columns t)) as [p|] eqn:Hp; [|done].
  simpl in Hout.
  destruct (to_datetime _) as [dates|] eqn:Hdates; [|done]. simpl in Hout.
  exists p. split; [done|].
  pose proof (to_datetime_length _ _ Hdates) as Hlen.
  unfold column_cells in Hlen. rewrite length_map in Hlen.
  apply column_index_Ok in Hp as (Hpos & _ & _).
  unfold setitem in Hout. rewrite decide_True, Hpos in Hout by done.
  injection Hout as <-. simpl. split; [done|].
  apply to_datetime_Ok in Hdates. clear Hlen Hpos.
  revert Hdates. generalize (datetime_format (column_cells (rows t) p)).
  intros fmt. unfold column_cells.
  revert dates. induction (rows t) as [|r rs IH]; intros dates; simpl.
  - intros ->%Forall2_nil_inv_l. constructor.
  - intros (v & dates' & Hv & Hdates & ->)%Forall2_cons_inv_l. simpl.
    constructor; [eauto | by apply IH].
Qed.

Lemma convert_date_succeeds t p :
  column_index "date" (columns t) = Ok p →
  Forall (fun r => succeeds (to_datetime_value
                     (datetime_format (column_cells (rows t) p)) (cell r p)))
         (rows t) →
  succeeds (convert_date t).
Proof.
  intros Hp Hrows. unfold convert_date, getitem. rewrite Hp. simpl.
  destruct (to_datetime_succeeds (column_cells (rows t) p))
    as [dates Hdates].
  { unfold column_cells at 2. by apply Forall_map. }
  rewrite Hdates. simpl.
  pose proof (to_datetime_length _ _ Hdates) as Hlen.
  unfold column_cells in Hlen. rewrite length_map in Hlen.
  apply column_index_Ok in Hp as (Hpos & _ & _).
  unfold setitem. rewrite decide_True, Hpos by done. by eexists.
Qed.

Lemma convert_date_row_count t out :
  convert_date t = Ok out → length (rows out) = length (rows t).
Proof.
  intros (p & _ & _ & Hrows)%convert_date_Ok. symmetry.
  by eapply Forall2_length.
Qed.

(** With its three locals bound, the body of [merge_data] is the merge of
    the specification. *)
Lemma merge_locals_bound sl it ic :
  merge_locals (Locals.mk (Some sl) (Some it) (Some ic)) = merge_spec sl it ic.
Proof.
  unfold merge_locals, merge_spec, convert_date. simpl.
  by destruct (merge it ic "item_category_id").
Qed.

Lemma merge_data_bound df_list sl it ic :
  last_named "df_sl" df_list = Some sl →
  last_named "df_it" df_list = Some it →
  last_named "df_ic" df_list = Some ic →
  merge_data df_list = merge_spec sl it ic.
Proof.
  intros Hsl Hit Hic. unfold merge_data.
  by rewrite unpack_last_named, Hsl, Hit, Hic, merge_locals_bound.
Qed.

Lemma merge_spec_Ok sl it ic out :
  merge_spec sl it ic = Ok out →
  ∃ items sales,
    merge it ic "item_category_id" = Ok items
    ∧ merge sl items "item_id" = Ok sales
    ∧ convert_date sales = Ok out.
Proof.
  unfold merge_spec. intros Hout.
  destruct (merge it ic _) as [items|] eqn:Hitems; [|done]. simpl in Hout.
  destruct (merge sl items _) as [sales|] eqn:Hsales; [|done]. simpl in Hout.
  by exists items, sales.
Qed.

End dates.

Section merge_results.
Context `{External}.
Implicit Types (df_list : list (Named.t DataFrame)) (sl it ic out : DataFrame).

(** C1 (amended). When no two rows of the join of the items table with the
    categories table carry the same item_id, the table [merge_data]
    returns has as many rows as the (non-empty) sales-log table. *)
Theorem merge_data_row_count df_list sl it ic out :
  last_named "df_sl" df_list = Some sl →
  last_named "df_it" df_list = Some it →
  last_named "df_ic" df_list = Some ic →
  rows sl ≠ [] →
  (∀ items, merge it ic "item_category_id" = Ok items →
            unique_on items "item_id") →
  merge_data df_list = Ok out →
  length (rows out) = length (rows sl).
Proof.
  intros Hsl Hit Hic _ Huniq Hout.
  rewrite (merge_data_bound df_list sl it ic) in Hout by done.
  apply merge_spec_Ok in Hout as (items & sales & Hitems & Hsales & Hout).
  rewrite (convert_date_row_count _ _ Hout).
  eapply merge_unique_row_count; eauto.
Qed.

(** In general a sales row counts once, or as often as the join of items
    and categories has rows with its item_id. *)
Lemma merge_data_row_count_exact df_list sl it ic out :
  last_named "df_sl" df_list = Some sl →
  last_named "df_it" df_list = Some it →
  last_named "df_ic" df_list = Some ic →
  merge_data df_list = Ok out →
  ∃ items i j,
    merge it ic "item_category_id" = Ok items
    ∧ column_index "item_id" (columns sl) = Ok i
    ∧ column_index "item_id" (columns items) = Ok j
    ∧ length (rows out) =
      sum_list (map (fun l => Nat.max 1 (length (partners
                       (key_floats i j sl items) (cell l i) j (rows items))))
                    (rows sl)).
Proof.
  intros Hsl Hit Hic Hout.
  rewrite (merge_data_bound df_list sl it ic) in Hout by done.
  apply merge_spec_Ok in Hout as (items & sales & Hitems & Hsales & Hout).
  destruct (merge_Ok _ _ _ _ Hsales) as (i & j & Hi & Hj & _).
  exists items, i, j. split_and!; try done.
  rewrite (convert_date_row_count _ _ Hout).
  by eapply merge_row_count.
Qed.

End merge_results.

Section merge_shape.
Context `{External}.
Implicit Types (df_list : list (Named.t DataFrame)) (sl it ic out : DataFrame).

Lemma join_row_unique floats promoting i j right l :
  NoDup (map (fun r => key_form floats (cell r j)) (rows right)) →
  ∃ x, join_row floats promoting i j right l = [l ++ x].
Proof.
  intros Hnd.
  pose proof (partners_unique floats (cell l i) j (rows right) Hnd) as Hlen.
  unfold join_row. destruct (partners _ _ _ _) as [|r [|r' ms]]; simpl in *.
  - eauto.
  - eauto.
  - lia.
Qed.

Lemma column_of_unique_join floats promoting i j k right (lrows : list Row) :
  NoDup (map (fun r => key_form floats (cell r j)) (rows right)) →
  Forall (fun l => k < length l) lrows →
  column_cells (flat_map (join_row floats promoting i j right) lrows) k =
  column_cells lrows k.
Proof.
  intros Hnd. unfold column_cells.
  induction 1 as [|l ls Hl _ IH]; simpl; [done|].
  destruct (join_row_unique floats promoting i j right l Hnd) as [x ->].
  simpl. by rewrite cell_app_l, IH.
Qed.

(** A column of the left table that keeps its label stands at the same
    place after the merge. *)
Lemma merged_column_index_left lcols rcols on j c p i :
  (∀ c', c' +:+ "_x" ≠ c) → (∀ c', c' +:+ "_y" ≠ c) → c ≠ on →
  column_index c lcols = Ok i →
  column_index c (merged_columns lcols rcols on j) = Ok p →
  p = i ∧ c ∉ rcols.
Proof.
  intros Hx Hy Hon (_ & Hi & Hiuniq)%column_index_Ok
    (_ & Hp & _)%column_index_Ok.
  apply merged_columns_lookup in Hp as [[Hp ?]|(_ & _ & Habs)]; try done.
  - split; [by apply Hiuniq | done].
  - exfalso. apply Habs. by eapply list_elem_of_lookup_2.
Qed.

(** Keys unique in the items table and in the categories table make the
    item_id unique in their join. *)
Lemma items_join_unique it ic items i :
  well_formed it →
  column_index "item_id" (columns it) = Ok i →
  unique_on it "item_id" →
  unique_on ic "item_category_id" →
  merge it ic "item_category_id" = Ok items →
  unique_on items "item_id".
Proof.
  intros Hwf Hi Hit Hic
    (i0 & j0 & Hi0 & Hj0 & _ & Hcols & Hrows)%merge_Ok s Hs.
  unfold getitem in Hs.
  destruct (column_index "item_id" (columns items)) as [p|] eqn:Hp; [|done].
  simpl in Hs. injection Hs as <-. rewrite Hcols in Hp.
  assert ("item_id" ≠ "item_category_id") as Hne by done.
  destruct (merged_column_index_left _ _ _ _ _ _ _
              item_id_not_suffixed_x item_id_not_suffixed_y
              Hne Hi Hp) as [-> _].
  destruct (joined_rows_flat_map i0 j0 it ic) as (floats & Hflat).
  rewrite Hrows, Hflat, column_of_unique_join.
  - apply Hit. unfold getitem. by rewrite Hi.
  - apply NoDup_key_form, Hic. unfold getitem. by rewrite Hj0.
  - apply column_index_lt in Hi. eapply Forall_impl; [exact Hwf|].
    simpl. intros l ->. done.
Qed.

Lemma Forall2_flat_map_blocks {A B C} (R : B → C → Prop) (f : A → list B)
    (ls : list A) (outs : list C) :
  Forall2 R (flat_map f ls) outs →
  ∃ blocks, outs = concat blocks
            ∧ Forall2 (fun l block => Forall2 R (f l) block) ls blocks.
Proof.
  revert outs. induction ls as [|l ls IH]; intros outs; simpl.
  - intros ->%Forall2_nil_inv_l. exists []. split; [done | constructor].
  - intros (o1 & o2 & H1 & H2 & ->)%Forall2_app_inv_l.
    destruct (IH _ H2) as (blocks & -> & Hblocks).
    exists (o1 :: blocks). split; [done | by constructor].
Qed.

Lemma Forall2_impl_Forall {A B} (P : A → Prop) (Q Q' : A → B → Prop) l k :
  Forall P l → Forall2 Q l k →
  (∀ x y, P x → Q x y → Q' x y) → Forall2 Q' l k.
Proof.
  intros HP HQ Himpl. induction HQ as [|x y l k Hxy _ IH]; [constructor|].
  apply Forall_cons in HP as [Hx HP]. constructor; eauto.
Qed.

(** C7 (amended). When [merge_data] succeeds on a sales log that has a
    date column, its output is the sales-log rows in order, each standing
    once or several times; in every output row the date cell is the date
    cell of its sales-log row, converted under the one format inferred for
    the date column of the joined table, the other sales-log cells stand
    unchanged, and the cells after them are missing values, or those of a
    row of the items-categories join, its integer columns converted to
    floats when some sales row has no partner in that join. *)
Theorem merge_data_date_column df_list sl it ic out d :
  last_named "df_sl" df_list = Some sl →
  last_named "df_it" df_list = Some it →
  last_named "df_ic" df_list = Some ic →
  well_formed sl →
  column_index "date" (columns sl) = Ok d →
  merge_data df_list = Ok out →
  ∃ items i j sales blocks,
    merge it ic "item_category_id" = Ok items
    ∧ column_index "item_id" (columns sl) = Ok i
    ∧ column_index "item_id" (columns items) = Ok j
    ∧ merge sl items "item_id" = Ok sales
    ∧ column_index "date" (columns out) = Ok d
    ∧ rows out = concat blocks
    ∧ Forall2 (fun l block =>
                 block ≠ []
                 ∧ Forall (fun o =>
                             stems_from
                               (datetime_format (column_cells (rows sales) d))
                               d l o
                             ∧ appended_from (some_unmatched i j sl items)
                                 items j (drop (length l) o))
                          block)
              (rows sl) blocks.
Proof.
  intros Hsl Hit Hic Hwf Hd Hout.
  rewrite (merge_data_bound df_list sl it ic) in Hout by done.
  apply merge_spec_Ok in Hout as (items & sales & Hitems & Hsales & Hout).
  pose proof Hsales as Hmerge.
  apply merge_Ok in Hsales as (i & j & Hi & Hj & _ & Hcols & Hrows).
  apply convert_date_Ok in Hout as (p & Hp & Hocols & Horows).
  assert (p = d) as ->.
  { rewrite Hcols in Hp.
    assert ("date" ≠ "item_id") as Hne by done.
    by destruct (merged_column_index_left _ _ _ _ _ _ _
                   date_not_suffixed_x date_not_suffixed_y
                   Hne Hd Hp) as [-> _]. }
  remember (datetime_format (column_cells (rows sales) d)) as fmt eqn:Hfmt
    in Horows.
  destruct (joined_rows_flat_map i j sl items) as (floats & Hflat).
  rewrite Hrows, Hflat in Horows.
  apply Forall2_flat_map_blocks in Horows as (blocks & Hconcat & Hblocks).
  exists items, i, j, sales, blocks. split_and!; try done; [congruence|].
  eapply Forall2_impl_Forall; [exact Hwf | exact Hblocks|].
  simpl. intros l block Hlen Hblock.
  apply column_index_lt in Hd as Hdlt. split.
  - pose proof (Forall2_length _ _ _ Hblock) as Hsame.
    rewrite join_row_length in Hsame. intros ->. simpl in Hsame. lia.
  - apply Forall_forall. intros o Ho.
    apply list_elem_of_lookup in Ho as [n Ho].
    destruct (Forall2_lookup_r _ _ _ _ _ Hblock Ho)
      as (r0 & Hr0 & v & Hv & ->).
    apply list_elem_of_lookup_2, elem_of_join_row in Hr0
      as (x & -> & Hx).
    rewrite cell_app_l in Hv by lia.
    rewrite insert_app_l by lia. split; [split|].
    + rewrite cell_app_l, cell_insert_eq by (rewrite ?length_insert; lia).
      by subst fmt.
    + intros k Hk Hne.
      by rewrite cell_app_l, cell_insert_ne by (rewrite ?length_insert; lia).
    + rewrite drop_app_length' by (rewrite length_insert; lia).
      destruct Hx as [->|(r & Hr & _ & ->)]; [by left | right; eauto].
Qed.

End merge_shape.

Section end_to_end.
Context `{External}.
Implicit Types (df_list : list (Named.t DataFrame)) (sl it ic out : DataFrame).



End end_to_end.

Section duplicates.
Implicit Types (rs seen : list Row).




End duplicates.

Section importer.
Context `{External}.


End importer.

(** ** The program on objects *)

Section exporter.
Context `{External} `{Ref.Backend}.
Implicit Types (w : Ref.World) (df : Ref.loc) (export_data : ExportData.t).

Lemma bind_run {A B} (m : Ref.M A) (f : A → Ref.M B) w :
  (m ≫= f) w =
  match m w with
  | (Ok a, w') => f a w'
  | (Raise e, w') => (Raise e, w')
  end.
Proof. done. Qed.

Lemma to_csv_run df path w :
  Ref.to_csv df path w =
  match Ref.heap w !! df with
  | None => (Raise Ref.dangling, w)
  | Some t =>
      if Ref.can_write (Ref.files w) path
      then (Ok (), Ref.mkWorld (Ref.heap w)
                     (<[path:=to_csv t]> (Ref.files w))
                     (Ref.trace w ++ [Ref.Written path (to_csv t)]))
      else (Raise (OSError path), w)
  end.
Proof.
  unfold Ref.to_csv. rewrite bind_run. unfold Ref.load, Ref.write.
  by destruct (Ref.heap w !! df).
Qed.

(** The three ways an export ends. *)
Lemma export_data_gcs_run df export_data w :
  let cloud := Ref.cloud_destination export_data in
  let local := Ref.local_destination export_data in
  let line1 := Ref.Printed
    ("Exporting " +:+ ExportData.filename export_data +:+ " to GCS") in
  let line2 := Ref.Printed
    ("Exporting " +:+ ExportData.filename export_data +:+ " to "
     +:+ ExportData.local_export_folder export_data) in
  Ref.export_data_gcs df export_data w =
  match Ref.heap w !! df with
  | None =>
      (Raise Ref.dangling,
       Ref.mkWorld (Ref.heap w) (Ref.files w) (Ref.trace w ++ [line1]))
  | Some t =>
      let text := to_csv t in
      if Ref.can_write (Ref.files w) cloud then
        if Ref.can_write (<[cloud:=text]> (Ref.files w)) local then
          (Ok df,
           Ref.mkWorld (Ref.heap w)
             (<[local:=text]> (<[cloud:=text]> (Ref.files w)))
             (Ref.trace w ++ [line1; Ref.Written cloud text;
                              line2; Ref.Written local text]))
        else
          (Raise (OSError local),
           Ref.mkWorld (Ref.heap w) (<[cloud:=text]> (Ref.files w))
             (Ref.trace w ++ [line1; Ref.Written cloud text; line2]))
      else
        (Raise (OSError cloud),
         Ref.mkWorld (Ref.heap w) (Ref.files w) (Ref.trace w ++ [line1]))
  end.
Proof.
  intros cloud local line1 line2. unfold Ref.export_data_gcs.
  rewrite bind_run. unfold Ref.print at 1. rewrite bind_run, to_csv_run.
  simpl. fold cloud.
  change (gcs_uri _ _ _) with cloud. change (local_path _ _) with local.
  destruct (Ref.heap w !! df) as [t|] eqn:Ht; [|done].
  destruct (Ref.can_write (Ref.files w) cloud); [|done].
  rewrite bind_run. unfold Ref.print at 1. rewrite bind_run, to_csv_run.
  simpl. rewrite Ht.
  destruct (Ref.can_write (<[cloud:=to_csv t]> (Ref.files w)) local).
  - unfold mret, Ref.M_ret. by rewrite <- !app_assoc.
  - by rewrite <- !app_assoc.
Qed.


(** C6. When the backend accepts both writes, [export_data_gcs] writes
    the CSV text of the table it was given to the cloud destination and the
    same text to the local destination, and both hold it afterwards.  In
    every outcome a text it writes is that CSV text, and the cloud
    destination holds it as soon as the cloud write is accepted. *)
Theorem export_data_gcs_same_bytes df export_data w t :
  Ref.heap w !! df = Some t →
  let cloud := Ref.cloud_destination export_data in
  let local := Ref.local_destination export_data in
  let r := (Ref.export_data_gcs df export_data w).1 in
  let w' := (Ref.export_data_gcs df export_data w).2 in
  (Ref.can_write (Ref.files w) cloud = true →
   Ref.can_write (<[cloud:=to_csv t]> (Ref.files w)) local = true →
   r = Ok df
   ∧ Ref.files w' !! cloud = Some (to_csv t)
   ∧ Ref.files w' !! local = Some (to_csv t)
   ∧ drop (length (Ref.trace w)) (Ref.trace w')
     = [Ref.Printed ("Exporting " +:+ ExportData.filename export_data
                     +:+ " to GCS");
        Ref.Written cloud (to_csv t);
        Ref.Printed ("Exporting " +:+ ExportData.filename export_data
                     +:+ " to "
                     +:+ ExportData.local_export_folder export_data);
        Ref.Written local (to_csv t)])
  ∧ (Ref.can_write (Ref.files w) cloud = true →
     Ref.files w' !! cloud = Some (to_csv t))
  ∧ (∀ evs path text,
       Ref.trace w' = Ref.trace w ++ evs →
       Ref.Written path text ∈ evs → text = to_csv t)
  ∧ (succeeds r →
     Ref.files w' !! cloud = Some (to_csv t)
     ∧ Ref.files w' !! local = Some (to_csv t)
     ∧ Ref.files w' !! cloud = Ref.files w' !! local).
Proof.
  intros Ht cloud local. rewrite export_data_gcs_run. fold cloud local.
  rewrite Ht. simpl.
  assert (Hlookup : ∀ fs : Files,
    <[local:=to_csv t]> (<[cloud:=to_csv t]> fs) !! cloud = Some (to_csv t)).
  { intros fs. destruct (decide (local = cloud)) as [->|Hne].
    - apply lookup_insert_eq.
    - rewrite lookup_insert_ne by done. apply lookup_insert_eq. }
  destruct (Ref.can_write (Ref.files w) cloud); simpl.
  - destruct (Ref.can_write (<[cloud:=to_csv t]> (Ref.files w)) local); simpl.
    + split_and!.
      * intros _ _. rewrite Hlookup, lookup_insert_eq, drop_app_length.
        done.
      * intros _. apply Hlookup.
      * intros evs path text <-%app_inv_head Hin.
        rewrite !elem_of_cons in Hin.
        destruct Hin as [?|[?|[?|[?|[]%elem_of_nil]]]]; congruence.
      * intros _. rewrite Hlookup, lookup_insert_eq. done.
    + split_and!; [done | | |by intros [? ?]].
      * intros _. apply lookup_insert_eq.
      * intros evs path text <-%app_inv_head Hin.
        rewrite !elem_of_cons in Hin.
        destruct Hin as [?|[?|[?|[]%elem_of_nil]]]; congruence.
  - split_and!; [done | done | |by intros [? ?]].
    intros evs path text <-%app_inv_head Hin.
    rewrite !elem_of_cons in Hin.
    destruct Hin as [?|[]%elem_of_nil]; congruence.
Qed.


End exporter.

Section merger_on_objects.
Context `{External}.
Implicit Types (w : Ref.World) (l : Ref.loc) (h : list DataFrame).

Lemma grown_nil w : Ref.grown w [] = w.
Proof. destruct w. unfold Ref.grown. simpl. by rewrite app_nil_r. Qed.

Lemma grown_grown w new1 new2 :
  Ref.grown (Ref.grown w new1) new2 = Ref.grown w (new1 ++ new2).
Proof. unfold Ref.grown. simpl. by rewrite app_assoc. Qed.

Lemma copy_run l w :
  Ref.copy l w =
  match Ref.heap w !! l with
  | Some t => (Ok (length (Ref.heap w)), Ref.grown w [t])
  | None => (Raise Ref.dangling, w)
  end.
Proof.
  unfold Ref.copy. rewrite bind_run. unfold Ref.load.
  by destruct (Ref.heap w !! l).
Qed.

Lemma merge_run left right on w :
  Ref.merge left right on w =
  match Ref.heap w !! left with
  | None => (Raise Ref.dangling, w)
  | Some tl =>
      match Ref.heap w !! right with
      | None => (Raise Ref.dangling, w)
      | Some tr =>
          match merge tl tr on with
          | Ok t => (Ok (length (Ref.heap w)), Ref.grown w [t])
          | Raise e => (Raise e, w)
          end
      end
  end.
Proof.
  unfold Ref.merge. rewrite bind_run. unfold Ref.load at 1.
  destruct (Ref.heap w !! left) as [tl|]; [|done].
  rewrite bind_run. unfold Ref.load at 1.
  destruct (Ref.heap w !! right) as [tr|]; [|done].
  rewrite bind_run. unfold Ref.lift at 1.
  by destruct (merge tl tr on).
Qed.

(** Reading the date column of an object, converting it and assigning it
    back changes that object in place, as [convert_date] changes a value. *)
Lemma convert_in_place_run l w t :
  Ref.heap w !! l = Some t →
  (date ← Ref.getitem l "date";
   date ← Ref.lift (to_datetime date);
   Ref.setitem l "date" date;; mret l) w =
  match convert_date t with
  | Ok out => (Ok l, Ref.mkWorld (<[l:=out]> (Ref.heap w)) (Ref.files w)
                                 (Ref.trace w))
  | Raise e => (Raise e, w)
  end.
Proof.
  intros Ht. unfold convert_date.
  rewrite bind_run. unfold Ref.getitem at 1. rewrite bind_run.
  unfold Ref.load at 1. rewrite Ht. unfold Ref.lift at 1.
  destruct (getitem t "date") as [date|]; [|done]. simpl.
  rewrite bind_run. unfold Ref.lift at 1.
  destruct (to_datetime date) as [date'|]; [|done]. simpl.
  rewrite bind_run. unfold Ref.setitem. rewrite bind_run.
  unfold Ref.load at 1. rewrite Ht. rewrite bind_run. unfold Ref.lift at 1.
  by destruct (setitem t "date" date').
Qed.

Lemma lookup_grown_new w t :
  Ref.heap (Ref.grown w [t]) !! length (Ref.heap w) = Some t.
Proof. simpl. by rewrite lookup_app_r, Nat.sub_diag by lia. Qed.

Lemma insert_grown_new w t t' :
  <[length (Ref.heap w):=t']> (Ref.heap (Ref.grown w [t]))
  = Ref.heap w ++ [t'].
Proof.
  simpl. rewrite insert_app_r_alt, Nat.sub_diag by lia. done.
Qed.

(** The second join and the conversion, from the object [items] the first
    join made. *)
Lemma merge_sales_run vsl items w t_items :
  Ref.heap w !! items = Some t_items →
  let rest :=
    (df_sl ← Ref.lift (read_local "df_sl" vsl);
     df ← Ref.merge df_sl items "item_id";
     date ← Ref.getitem df "date";
     date ← Ref.lift (to_datetime date);
     Ref.setitem df "date" date;; mret df) in
  ∃ new,
    (rest w).2 = Ref.grown w new
    ∧ ∀ tsl,
        Ref.holds (Ref.heap w) vsl tsl →
        match df_sl ← read_local "df_sl" tsl;
              df ← merge df_sl t_items "item_id";
              convert_date df
        with
        | Ok out =>
            ∃ l, (rest w).1 = Ok l
                 ∧ (Ref.heap w ++ new) !! l = Some out
                 ∧ length (Ref.heap w) ≤ l
        | Raise e => (rest w).1 = Raise e
        end.
Proof.
  intros Hitems rest. unfold rest. clear rest.
  rewrite bind_run. unfold Ref.lift at 1.
  destruct vsl as [lsl|]; simpl.
  2:{ exists []. rewrite grown_nil. split; [done|].
      by intros [tsl|] Hsl. }
  rewrite bind_run, merge_run, Hitems.
  destruct (Ref.heap w !! lsl) as [t_sl|] eqn:Hlsl.
  2:{ exists []. rewrite grown_nil. split; [done|].
      intros [tsl|] Hsl; simpl in Hsl; done. }
  destruct (merge t_sl t_items "item_id") as [t_sales|e] eqn:Hsales.
  2:{ exists []. rewrite grown_nil. split; [done|].
      intros [tsl|] Hsl; simpl in Hsl; [|done].
      assert (tsl = t_sl) as -> by congruence. simpl. by rewrite Hsales. }
  rewrite (convert_in_place_run _ _ t_sales) by apply lookup_grown_new.
  destruct (convert_date t_sales) as [out|e] eqn:Hout.
  - rewrite insert_grown_new. exists [out]. split; [done|].
    intros [tsl|] Hsl; simpl in Hsl; [|done].
    assert (tsl = t_sl) as -> by congruence. simpl. rewrite Hsales. simpl.
    rewrite Hout. exists (length (Ref.heap w)). split; [done|].
    split; [|done]. by rewrite lookup_app_r, Nat.sub_diag by lia.
  - exists [t_sales]. split; [done|].
    intros [tsl|] Hsl; simpl in Hsl; [|done].
    assert (tsl = t_sl) as -> by congruence. simpl. rewrite Hsales. simpl.
    by rewrite Hout.
Qed.

(** The statements after the loop allocate and leave every older object
    as it was; from locals that hold tables they compute what
    [merge_locals] computes from the tables. *)
Lemma merge_locals_run vars w :
  ∃ new,
    (Ref.merge_locals vars w).2 = Ref.grown w new
    ∧ ∀ tables,
        Ref.locals_hold (Ref.heap w) vars tables →
        match merge_locals tables with
        | Ok out =>
            ∃ l, (Ref.merge_locals vars w).1 = Ok l
                 ∧ (Ref.heap w ++ new) !! l = Some out
                 ∧ length (Ref.heap w) ≤ l
        | Raise e => (Ref.merge_locals vars w).1 = Raise e
        end.
Proof.
  destruct vars as [vsl vit vic]. unfold Ref.merge_locals. simpl.
  rewrite bind_run. unfold Ref.lift at 1.
  destruct vit as [lit|]; simpl.
  2:{ exists []. rewrite grown_nil. split; [done|].
      intros [tsl [tit|] tic] (_ & Hit & _); simpl in *; done. }
  rewrite bind_run. unfold Ref.lift at 1.
  destruct vic as [lic|]; simpl.
  2:{ exists []. rewrite grown_nil. split; [done|].
      intros [tsl [tit|] [tic|]] (_ & Hit & Hic); simpl in *; done. }
  rewrite bind_run, merge_run.
  destruct (Ref.heap w !! lit) as [t_it|] eqn:Hlit.
  2:{ exists []. rewrite grown_nil. split; [done|].
      intros [tsl [tit|] tic] (_ & Hit & _); simpl in *;
        first [done | congruence]. }
  destruct (Ref.heap w !! lic) as [t_ic|] eqn:Hlic.
  2:{ exists []. rewrite grown_nil. split; [done|].
      intros [tsl tit [tic|]] (_ & _ & Hic); simpl in *;
        first [done | congruence]. }
  destruct (merge t_it t_ic "item_category_id") as [t_items|e] eqn:Hitems.
  2:{ exists []. rewrite grown_nil. split; [done|].
      intros [tsl [tit|] [tic|]] (_ & Hit & Hic); simpl in *; try done.
      assert (tit = t_it) as -> by congruence.
      assert (tic = t_ic) as -> by congruence.
      unfold merge_locals. simpl. by rewrite Hitems. }
  destruct (merge_sales_run vsl (length (Ref.heap w)) (Ref.grown w [t_items])
              t_items (lookup_grown_new w t_items)) as (new & Hworld & Hlink).
  exists (t_items :: new). split.
  { rewrite Hworld, grown_grown. done. }
  intros [tsl [tit|] [tic|]] (Hsl & Hit & Hic); simpl in *; try done.
  assert (tit = t_it) as -> by congruence.
  assert (tic = t_ic) as -> by congruence.
  assert (Hsl' : Ref.holds (Ref.heap w ++ [t_items]) vsl tsl).
  { destruct vsl, tsl; simpl in *; try done. by apply lookup_app_l_Some. }
  specialize (Hlink tsl Hsl').
  unfold merge_locals. simpl. rewrite Hitems. simpl.
  unfold convert_date in Hlink.
  destruct (df_sl ← read_local "df_sl" tsl;
            df ← merge df_sl t_items "item_id";
            date ← getitem df "date"; date0 ← to_datetime date;
            setitem df "date" date0) as [out|e] eqn:Hres.
  - destruct Hlink as (l & Hl & Hout & Hge). exists l.
    split; [done|]. rewrite length_app in Hge. simpl in Hge.
    split; [|lia]. by rewrite <- app_assoc in Hout.
  - done.
Qed.

Lemma holds_grown h new v t :
  Ref.holds h v t → Ref.holds (h ++ new) v t.
Proof.
  destruct v, t; simpl; try done. apply lookup_app_l_Some.
Qed.

Lemma locals_hold_grown h new vars tables :
  Ref.locals_hold h vars tables → Ref.locals_hold (h ++ new) vars tables.
Proof. intros (? & ? & ?). split_and!; by apply holds_grown. Qed.

Lemma deref_list_cons h e df_list tables :
  Ref.deref_list h (e :: df_list) = Some tables ↔
  ∃ t tables',
    h !! Named.df e = Some t
    ∧ Ref.deref_list h df_list = Some tables'
    ∧ tables = Named.mk (Named.df_name e) t :: tables'.
Proof.
  unfold Ref.deref_list. rewrite mapM_Some. split.
  - intros (n & tables' & Hn & Hrest & ->)%Forall2_cons_inv_l.
    unfold Ref.deref in Hn.
    destruct (h !! Named.df e) as [t|]; [|done]. simpl in Hn.
    injection Hn as <-. exists t, tables'. by rewrite mapM_Some.
  - intros (t & tables' & Ht & Hrest%mapM_Some & ->).
    constructor; [|done]. unfold Ref.deref. by rewrite Ht.
Qed.

Lemma deref_list_grown h new df_list tables :
  Ref.deref_list h df_list = Some tables →
  Ref.deref_list (h ++ new) df_list = Some tables.
Proof.
  revert tables. induction df_list as [|e df_list IH]; intros tables.
  - done.
  - rewrite !deref_list_cons. intros (t & tables' & Ht & Hrest & ->).
    exists t, tables'. split_and!; [by apply lookup_app_l_Some | eauto | done].
Qed.

(** One turn of the loop copies at most one table and touches no other
    object. *)
Lemma unpack_step_run vars e w :
  ∃ copies,
    (Ref.unpack_step vars e w).2 = Ref.grown w copies
    ∧ ∀ t tables,
        Ref.heap w !! Named.df e = Some t →
        Ref.locals_hold (Ref.heap w) vars tables →
        ∃ vars',
          (Ref.unpack_step vars e w).1 = Ok vars'
          ∧ Ref.locals_hold (Ref.heap w ++ copies) vars'
              (unpack_step tables (Named.mk (Named.df_name e) t)).
Proof.
  unfold Ref.unpack_step, unpack_step, copy. simpl.
  assert (Hcopy : ∀ f : Ref.loc → Locals.t Ref.loc,
    (c ← Ref.copy (Named.df e); mret (f c)) w =
    match Ref.heap w !! Named.df e with
    | Some t => (Ok (f (length (Ref.heap w))), Ref.grown w [t])
    | None => (Raise Ref.dangling, w)
    end).
  { intros f. rewrite bind_run, copy_run.
    by destruct (Ref.heap w !! Named.df e). }
  repeat destruct (decide _); rewrite ?Hcopy.
  1-3: destruct (Ref.heap w !! Named.df e) as [t0|] eqn:Ht0;
    [ exists [t0]; split; [done|];
      intros t tables [= <-] (Hsl & Hit & Hic); eexists; split; [done|];
      split_and!; simpl;
        first [ by rewrite lookup_app_r, Nat.sub_diag by lia
              | by apply holds_grown ]
    | exists []; rewrite grown_nil; split; [done|]; by intros t tables ].
  exists []. rewrite grown_nil. split; [done|].
  intros t tables _ Hvars. exists vars. split; [done|].
  by apply locals_hold_grown.
Qed.

Lemma unpack_from_run df_list vars w :
  ∃ copies,
    (Ref.unpack_from vars df_list w).2 = Ref.grown w copies
    ∧ ∀ named tables,
        Ref.deref_list (Ref.heap w) df_list = Some named →
        Ref.locals_hold (Ref.heap w) vars tables →
        ∃ vars',
          (Ref.unpack_from vars df_list w).1 = Ok vars'
          ∧ Ref.locals_hold (Ref.heap w ++ copies) vars'
              (fold_left unpack_step named tables).
Proof.
  revert vars w. induction df_list as [|e df_list IH]; intros vars w; simpl.
  - exists []. rewrite grown_nil. split; [done|].
    intros named tables [= <-] Hvars. exists vars. split; [done|].
    by apply locals_hold_grown.
  - rewrite bind_run.
    destruct (unpack_step_run vars e w) as (c1 & Hw1 & Hstep).
    destruct (Ref.unpack_step vars e w) as [[vars1|err] w1] eqn:Hrun;
      simpl in Hw1; subst w1.
    + destruct (IH vars1 (Ref.grown w c1)) as (c2 & Hw2 & Hrest).
      exists (c1 ++ c2). split; [by rewrite Hw2, grown_grown|].
      intros named tables (t & named' & Ht & Hnamed' & ->)%deref_list_cons
        Hvars.
      destruct (Hstep t tables Ht Hvars) as (vars1' & [= <-] & Hvars1).
      destruct (Hrest named' _ (deref_list_grown _ c1 _ _ Hnamed') Hvars1)
        as (vars' & Hok & Hvars').
      exists vars'. split; [done|]. simpl in Hvars'.
      by rewrite app_assoc.
    + exists c1. split; [done|].
      intros named tables (t & named' & Ht & _ & _)%deref_list_cons Hvars.
      by destruct (Hstep t tables Ht Hvars) as (? & ? & _).
Qed.

(** On a heap that holds the tables of the list, [merge_data] on objects
    returns a new object holding what [merge_data] on values returns, and
    raises what it raises. *)
Lemma merge_data_on_objects df_list w named :
  Ref.deref_list (Ref.heap w) df_list = Some named →
  match merge_data named with
  | Ok out =>
      ∃ l, (Ref.merge_data df_list w).1 = Ok l
           ∧ Ref.heap (Ref.merge_data df_list w).2 !! l = Some out
           ∧ length (Ref.heap w) ≤ l
  | Raise e => (Ref.merge_data df_list w).1 = Raise e
  end.
Proof.
  intros Hnamed. unfold Ref.merge_data, merge_data, unpack.
  rewrite bind_run.
  destruct (unpack_from_run df_list Locals.unbound w) as (c1 & Hw1 & Hloop).
  destruct (Hloop named Locals.unbound Hnamed) as (vars & Hvars & Hhold).
  { by split_and!. }
  destruct (Ref.unpack_from Locals.unbound df_list w) as [r w1].
  simpl in Hw1, Hvars. subst r w1.
  destruct (merge_locals_run vars (Ref.grown w c1)) as (c2 & Hw2 & Hlink).
  specialize (Hlink _ Hhold).
  destruct (merge_locals _) as [out|e]; [|done].
  destruct Hlink as (l & Hl & Hout & Hge). exists l.
  split; [done|]. rewrite Hw2. simpl in *. split; [done|].
  rewrite length_app in Hge. lia.
Qed.

(** C10. [merge_data] leaves every object of the heap it was started on,
    the tables of [df_list] among them, as it was: it only adds objects,
    prints and writes nothing, and the table it returns is one of the
    objects it added. *)
Theorem merge_data_keeps_inputs df_list w :
  let r := (Ref.merge_data df_list w).1 in
  let w' := (Ref.merge_data df_list w).2 in
  Ref.heap w `prefix_of` Ref.heap w'
  ∧ (∀ l t, Ref.heap w !! l = Some t → Ref.heap w' !! l = Some t)
  ∧ (∀ named, Ref.deref_list (Ref.heap w) df_list = Some named →
              Ref.deref_list (Ref.heap w') df_list = Some named)
  ∧ Ref.files w' = Ref.files w
  ∧ Ref.trace w' = Ref.trace w
  ∧ (∀ named l, Ref.deref_list (Ref.heap w) df_list = Some named →
                r = Ok l → length (Ref.heap w) ≤ l).
Proof.
  intros r w'.
  assert (∃ new, w' = Ref.grown w new) as [new Hw'].
  { unfold w', Ref.merge_data. rewrite bind_run.
    destruct (unpack_from_run df_list Locals.unbound w) as (c1 & Hw1 & _).
    destruct (Ref.unpack_from Locals.unbound df_list w) as [[vars|e] w1];
      simpl in Hw1; subst w1; [|by exists c1].
    destruct (merge_locals_run vars (Ref.grown w c1)) as (c2 & Hw2 & _).
    exists (c1 ++ c2). by rewrite Hw2, grown_grown. }
  rewrite Hw'. simpl. split_and!; try done.
  - by apply prefix_app_r.
  - intros l t. apply lookup_app_l_Some.
  - intros named. apply deref_list_grown.
  - intros named l Hnamed Hr.
    pose proof (merge_data_on_objects df_list w named Hnamed) as Hlink.
    fold r in Hlink. rewrite Hr in Hlink.
    destruct (merge_data named) as [out|e]; [|done].
    destruct Hlink as (l' & [= <-] & _ & Hge). done.
Qed.

End merger_on_objects.

Section importer_on_objects.
Context `{External}.

Lemma read_csv_run uri w :
  Ref.read_csv uri w =
  match read_csv (Ref.files w) uri with
  | Ok t => (Ok (length (Ref.heap w)), Ref.grown w [t])
  | Raise e => (Raise e, w)
  end.
Proof.
  unfold Ref.read_csv, read_csv.
  destruct (Ref.files w !! uri) as [text|]; [|done].
  by destruct (parse_csv text).
Qed.

(** On objects the import allocates the table read and its copy without
    repeated rows, returns the latter, and leaves the backend and every
    older object as they were. *)
Lemma import_gcs_data_on_objects import_data w :
  ∃ new,
    (Ref.import_gcs_data import_data w).2 = Ref.grown w new
    ∧ match import_gcs_data (Ref.files w) import_data with
      | Ok named =>
          ∃ l, (Ref.import_gcs_data import_data w).1
               = Ok (Named.mk (Named.df_name named) l)
               ∧ (Ref.heap w ++ new) !! l = Some (Named.df named)
      | Raise e => (Ref.import_gcs_data import_data w).1 = Raise e
      end.
Proof.
  unfold Ref.import_gcs_data, import_gcs_data. simpl.
  rewrite bind_run, read_csv_run.
  destruct (read_csv (Ref.files w) _) as [t|e]; simpl.
  2:{ exists []. by rewrite grown_nil. }
  rewrite bind_run. unfold Ref.drop_duplicates. rewrite bind_run.
  unfold Ref.load. rewrite lookup_grown_new. unfold Ref.alloc. simpl.
  exists [t; drop_duplicates t]. split.
  - unfold Ref.grown. simpl. by rewrite <- app_assoc.
  - exists (S (length (Ref.heap w))). split.
    + by rewrite length_app, Nat.add_comm.
    + rewrite lookup_app_r by lia.
      by replace (S (length (Ref.heap w)) - length (Ref.heap w)) with 1 by lia.
Qed.

End importer_on_objects.

(** ** The properties on the sample inputs *)

Section samples.
#[local] Existing Instance sample_external.

(** C1, as stated, fails: with item 2 in two categories the sales log of
    three rows merges into four. *)
Lemma merge_data_row_count_counterexample :
  last_named "df_sl" repeated_list = Some sample_sl
  ∧ rows sample_sl ≠ []
  ∧ merge_data repeated_list = Ok repeated_out
  ∧ length (rows sample_sl) = 3
  ∧ length (rows repeated_out) = 4.
Proof.
  split_and!; [reflexivity | discriminate | vm_compute; reflexivity
              | reflexivity | reflexivity].
Qed.

(** With unique keys the three sample sales rows merge into three rows. *)
Lemma merge_data_row_count_witness :
  rows sample_sl ≠ []
  ∧ merge_data sample_list = Ok sample_out
  ∧ length (rows sample_out) = length (rows sample_sl).
Proof.
  split; [discriminate|]. split; [vm_compute; reflexivity|].
  apply (merge_data_row_count sample_list sample_sl sample_it sample_ic);
    [reflexivity | reflexivity | reflexivity | discriminate | |
     vm_compute; reflexivity].
  intros items Hitems. vm_compute in Hitems. injection Hitems as <-.
  intros s Hs. vm_compute in Hs. injection Hs as <-.
  apply (bool_decide_unpack _). vm_compute. exact I.
Defined.

Lemma sample_sl_well_formed : well_formed sample_sl.
Proof. repeat constructor. Defined.


(** C3, as stated, fails: without sales log and without the category key
    in the items table the first join raises [KeyError], no unbound local
    is ever read. *)
Lemma merge_data_missing_name_counterexample :
  absent "df_sl" keyless_list
  ∧ merge_data keyless_list = Raise (KeyError "item_category_id")
  ∧ ¬ ∃ var, merge_data keyless_list = Raise (UnboundLocalError var).
Proof.
  split_and!.
  - apply last_named_absent. reflexivity.
  - vm_compute. reflexivity.
  - intros [var Hvar]. vm_compute in Hvar. discriminate Hvar.
Qed.

(** Without sales log, and with both other tables in order, the second
    join reads the unbound local. *)
Lemma merge_data_missing_name_witness :
  absent "df_sl" no_sales_list
  ∧ fails (merge_data no_sales_list)
  ∧ merge_data no_sales_list = Raise (UnboundLocalError "df_sl").
Proof.
  assert (Habsent : absent "df_sl" no_sales_list).
  { apply last_named_absent. reflexivity. }
  destruct (merge_data_missing_name_fails no_sales_list) as (Hfails & _ & _ & Hsl).
  { exists "df_sl". split; [|exact Habsent]. by left. }
  split_and!; [exact Habsent | exact Hfails|].
  rewrite (Hsl sample_it sample_ic eq_refl eq_refl). vm_compute. reflexivity.
Defined.


(** C7, as stated, fails: a sales log without date column merges with an
    items table that has one; the dates of the output are those of the
    items table. *)
Lemma merge_data_date_column_counterexample :
  merge_data undated_list = Ok undated_out
  ∧ last_named "df_sl" undated_list = Some undated_sl
  ∧ getitem undated_sl "date" = Raise (KeyError "date")
  ∧ getitem undated_out "date" = Ok [Timestamp first_day]
  ∧ getitem dated_it "date" = Ok [Str "2013-01-01"].
Proof. split_and!; vm_compute; reflexivity. Qed.

(** The dates of the sample output are the parsed dates of the sales log. *)
Lemma merge_data_date_column_witness :
  ∃ items i j sales blocks,
    merge sample_it sample_ic "item_category_id" = Ok items
    ∧ column_index "item_id" (columns sample_sl) = Ok i
    ∧ column_index "item_id" (columns items) = Ok j
    ∧ merge sample_sl items "item_id" = Ok sales
    ∧ column_index "date" (columns sample_out) = Ok 1
    ∧ rows sample_out = concat blocks
    ∧ Forall2 (fun l block =>
                 block ≠ []
                 ∧ Forall (fun o =>
                             stems_from
                               (datetime_format (column_cells (rows sales) 1))
                               1 l o
                             ∧ appended_from (some_unmatched i j sample_sl items)
                                 items j (drop (length l) o))
                          block)
              (rows sample_sl) blocks.
Proof.
  apply (merge_data_date_column sample_list sample_sl sample_it sample_ic
           sample_out 1).
  - reflexivity.
  - reflexivity.
  - reflexivity.
  - exact sample_sl_well_formed.
  - vm_compute. reflexivity.
  - vm_compute. reflexivity.
Defined.

(** The entry named df_test and the first sales log of the crowded list
    play no part. *)
Lemma merge_data_last_entry_wins_witness :
  merge_data crowded_list
  = merge_data [Named.mk "df_it" sample_it; Named.mk "df_ic" sample_ic;
                Named.mk "df_sl" sample_sl].
Proof.
  destruct merge_data_last_entry_wins as (_ & Hother & Hoverwritten).
  etrans.
  - apply (Hoverwritten [] (Named.mk "df_sl" undated_sl)
             [Named.mk "df_it" sample_it; Named.mk "df_test" keyless_it;
              Named.mk "df_ic" sample_ic]
             (Named.mk "df_sl" sample_sl) []).
    reflexivity.
  - apply (Hother [Named.mk "df_it" sample_it] (Named.mk "df_test" keyless_it)
             [Named.mk "df_ic" sample_ic; Named.mk "df_sl" sample_sl]).
    apply (bool_decide_unpack _). vm_compute. exact I.
Defined.

(** After the merge the three sample objects are what they were. *)
Lemma merge_data_keeps_inputs_witness :
  Ref.heap (Ref.merge_data sample_refs sample_world).2 !! 0 = Some sample_sl
  ∧ Ref.deref_list (Ref.heap (Ref.merge_data sample_refs sample_world).2)
      sample_refs = Some sample_list.
Proof.
  destruct (merge_data_keeps_inputs sample_refs sample_world)
    as (_ & Hobjects & Hlist & _).
  split.
  - apply Hobjects. reflexivity.
  - apply Hlist. reflexivity.
Defined.

End samples.

Section samples_open_backend.
#[local] Existing Instance sample_external.
#[local] Existing Instance open_backend.


(** Both destinations of the sample export hold the CSV text of the
    sample output. *)
Lemma export_data_gcs_same_bytes_witness :
  to_csv sample_out = sample_out_text
  ∧ (Ref.export_data_gcs 0 sample_export merged_world).1 = Ok 0
  ∧ Ref.files (Ref.export_data_gcs 0 sample_export merged_world).2
      !! "gcs://sales-bucket/merged/merged.csv"
    = Some (to_csv sample_out)
  ∧ Ref.files (Ref.export_data_gcs 0 sample_export merged_world).2
      !! "out/merged.csv"
    = Some (to_csv sample_out).
Proof.
  destruct (export_data_gcs_same_bytes 0 sample_export merged_world sample_out
              eq_refl) as (Hboth & _).
  destruct Hboth as (Hreturn & Hcloud & Hlocal & _);
    [reflexivity | reflexivity|].
  split_and!; [vm_compute; reflexivity | exact Hreturn | exact Hcloud
              | exact Hlocal].
Defined.

End samples_open_backend.

Section samples_cloud_only_backend.
#[local] Existing Instance sample_external.
#[local] Existing Instance cloud_only_backend.


End samples_cloud_only_backend.

(** * Further properties of the three functions *)

Section importer_edges.
Context `{External}.
Implicit Types (rs seen : list Row).





End importer_edges.

Section merger_edges.
Context `{External}.
Implicit Types (df_list : list (Named.t DataFrame)) (sl it ic out : DataFrame).

(** A successful merge had its three locals bound. *)
Lemma merge_data_Ok_bound df_list out :
  merge_data df_list = Ok out →
  ∃ sl it ic,
    last_named "df_sl" df_list = Some sl
    ∧ last_named "df_it" df_list = Some it
    ∧ last_named "df_ic" df_list = Some ic
    ∧ merge_spec sl it ic = Ok out.
Proof.
  unfold merge_data. rewrite unpack_last_named. unfold merge_locals. simpl.
  destruct (last_named "df_it" df_list) as [it|]; [|done].
  destruct (last_named "df_ic" df_list) as [ic|]; [|done]. simpl.
  intros Hout. destruct (last_named "df_sl" df_list) as [sl|].
  - exists sl, it, ic. by split_and!.
  - by destruct (merge it ic "item_category_id").
Qed.

Lemma sum_list_at_least {A} (f : A → nat) (xs : list A) :
  (∀ x, 1 ≤ f x) → length xs ≤ sum_list (map f xs).
Proof.
  intros Hf. induction xs as [|x xs IH]; simpl; [done|].
  specialize (Hf x). lia.
Qed.

(** X3. [merge_data] loses no row of the sales log: its output has at
    least as many rows, and none when the sales log has none. *)
Theorem merge_data_keeps_every_sales_row df_list sl out :
  last_named "df_sl" df_list = Some sl →
  merge_data df_list = Ok out →
  length (rows sl) ≤ length (rows out)
  ∧ (rows sl = [] → rows out = []).
Proof.
  intros Hsl Hout.
  destruct (merge_data_Ok_bound _ _ Hout)
    as (sl' & it & ic & Hsl' & Hit & Hic & _).
  assert (sl' = sl) as -> by congruence.
  destruct (merge_data_row_count_exact df_list sl it ic out Hsl Hit Hic Hout)
    as (items & i & j & _ & _ & _ & Hcount).
  rewrite Hcount. split.
  - apply sum_list_at_least. intros l. lia.
  - intros Hnil. rewrite Hnil in Hcount. simpl in Hcount.
    by apply length_zero_iff_nil.
Qed.

Lemma merge_well_formed left right on m :
  well_formed left → well_formed right →
  merge left right on = Ok m →
  well_formed m
  ∧ length (columns m) = length (columns left) + length (columns right) - 1.
Proof.
  intros Hl Hr (i & j & Hi & Hj & _ & Hcols & Hrows)%merge_Ok.
  apply column_index_lt in Hj as Hjlt.
  assert (Hwidth : length (columns m)
                   = length (columns left) + (length (columns right) - 1)).
  { rewrite Hcols. unfold merged_columns.
    rewrite length_app, !length_map, length_delete; [done|].
    by apply lookup_lt_is_Some. }
  split; [|lia].
  destruct (joined_rows_flat_map i j left right)
    as (floats & Hflat).
  unfold well_formed. rewrite Hrows, Hflat, Hwidth. apply Forall_forall.
  intros o Ho.
  apply list_elem_of_In, in_flat_map in Ho as (l & Hin%list_elem_of_In & Ho).
  apply list_elem_of_In, elem_of_join_row in Ho as (x & -> & Hx).
  rewrite length_app. f_equal.
  - by eapply Forall_forall in Hl.
  - destruct Hx as [->|(r & Hrin & _ & ->)].
    + by apply length_missing_row.
    + eapply Forall_forall in Hr; [|done].
      rewrite length_carried; [by rewrite Hr | by rewrite Hr].
Qed.

Lemma convert_date_well_formed t out :
  well_formed t → convert_date t = Ok out →
  well_formed out ∧ columns out = columns t.
Proof.
  intros Hwf (p & _ & Hcols & Hrows)%convert_date_Ok. split; [|done].
  unfold well_formed in *. rewrite Hcols.
  revert Hrows. generalize (datetime_format (column_cells (rows t) p)).
  generalize (length (columns t)) Hwf. clear. intros n Hwf fmt Hrows.
  induction Hrows as [|r o rs os (v & _ & ->) _ IH]; [constructor|].
  apply Forall_cons in Hwf as [Hr Hwf].
  constructor; [by rewrite length_insert | by apply IH].
Qed.

(** X4. From rectangular tables [merge_data] makes a rectangular table:
    every output row has one cell per output column, and the output has
    the columns of the three tables less the two keys joined on. *)
Theorem merge_data_well_formed df_list sl it ic out :
  last_named "df_sl" df_list = Some sl →
  last_named "df_it" df_list = Some it →
  last_named "df_ic" df_list = Some ic →
  well_formed sl → well_formed it → well_formed ic →
  merge_data df_list = Ok out →
  well_formed out
  ∧ length (columns out)
    = length (columns sl) + length (columns it) + length (columns ic) - 2.
Proof.
  intros Hsl Hit Hic Hwsl Hwit Hwic Hout.
  rewrite (merge_data_bound df_list sl it ic) in Hout by done.
  apply merge_spec_Ok in Hout as (items & sales & Hitems & Hsales & Hout).
  destruct (merge_well_formed _ _ _ _ Hwit Hwic Hitems) as [Hwitems Hnitems].
  destruct (merge_well_formed _ _ _ _ Hwsl Hwitems Hsales) as [Hwsales Hnsales].
  destruct (convert_date_well_formed _ _ Hwsales Hout) as [Hwout Hcols].
  split; [done|]. rewrite Hcols, Hnsales, Hnitems.
  apply merge_Ok in Hitems as (_ & j & _ & Hj%column_index_lt & _).
  apply merge_Ok in Hsales as (i & _ & Hi%column_index_lt & _).
  lia.
Qed.

Lemma of_parsed_is_datetime what p v' :
  of_parsed what p = Ok v' → is_datetime v'.
Proof.
  destruct p; simpl; [done | |].
  - intros [= <-]. by left.
  - intros [= <-]. right. eauto.
Qed.

Lemma to_datetime_value_is_datetime fmt v v' :
  to_datetime_value fmt v = Ok v' → is_datetime v'.
Proof.
  destruct v as [| |z|f|s|t]; simpl.
  - intros [= <-]. by left.
  - intros [= <-]. by left.
  - destruct fmt; [apply of_parsed_is_datetime|].
    intros [= <-]. destruct (decide (z = iNaT)); [by left | right; eauto].
  - destruct fmt; apply of_parsed_is_datetime.
  - apply of_parsed_is_datetime.
  - intros [= <-]. right. eauto.
Qed.

(** X5. The date column of the table [merge_data] returns is date-typed:
    every cell of it is a timestamp or the missing timestamp. *)
Theorem merge_data_date_typed df_list sl it ic out :
  last_named "df_sl" df_list = Some sl →
  last_named "df_it" df_list = Some it →
  last_named "df_ic" df_list = Some ic →
  well_formed sl → well_formed it → well_formed ic →
  merge_data df_list = Ok out →
  ∃ dates, getitem out "date" = Ok dates
           ∧ length dates = length (rows out)
           ∧ Forall is_datetime dates.
Proof.
  intros Hsl Hit Hic Hwsl Hwit Hwic Hout.
  rewrite (merge_data_bound df_list sl it ic) in Hout by done.
  apply merge_spec_Ok in Hout as (items & sales & Hitems & Hsales & Hout).
  destruct (merge_well_formed _ _ _ _ Hwit Hwic Hitems) as [Hwitems _].
  destruct (merge_well_formed _ _ _ _ Hwsl Hwitems Hsales) as [Hwsales _].
  apply convert_date_Ok in Hout as (p & Hp & Hcols & Hrows).
  unfold getitem. rewrite Hcols, Hp. simpl. eexists. split; [done|].
  unfold column_cells at 1 2. split; [by rewrite length_map|].
  apply column_index_lt in Hp. apply Forall_map.
  unfold well_formed in Hwsales. revert Hrows Hp Hwsales.
  generalize (datetime_format (column_cells (rows sales) p)).
  generalize (length (columns sales)). clear. intros n fmt Hrows Hp Hwsales.
  induction Hrows as [|r o rs os (v & Hv & ->) _ IH]; [constructor|].
  apply Forall_cons in Hwsales as [Hr Hwsales].
  constructor; [|by apply IH]. simpl.
  rewrite cell_insert_eq by lia. by eapply to_datetime_value_is_datetime.
Qed.

End merger_edges.

Section merger_date_errors.
Context `{External}.
Implicit Types (df_list : list (Named.t DataFrame)) (sl it ic out : DataFrame).

Lemma column_index_missing c cols :
  c ∉ cols → column_index c cols = Raise (KeyError c).
Proof.
  intros Hc. unfold column_index.
  destruct (positions c cols) as [|i ?] eqn:Hpos; [done|].
  exfalso. apply Hc. apply list_elem_of_lookup. exists i.
  apply elem_of_positions. rewrite Hpos. by left.
Qed.

Lemma NoDup_positions_from n c cols : NoDup (positions_from n c cols).
Proof.
  revert n. induction cols as [|c' cols IH]; intros n; simpl; [constructor|].
  destruct (decide (c' = c)); [|done].
  apply NoDup_cons. split; [|done].
  rewrite elem_of_positions_from. intros (k & Hk & _). lia.
Qed.

Lemma column_index_unique c cols i :
  cols !! i = Some c → (∀ k, cols !! k = Some c → k = i) →
  column_index c cols = Ok i.
Proof.
  intros Hi Huniq. unfold column_index.
  pose proof (NoDup_positions_from 0 c cols) as Hnd. fold (positions c cols) in Hnd.
  assert (Hall : ∀ k, k ∈ positions c cols → k = i).
  { intros k Hk%elem_of_positions. by apply Huniq. }
  assert (Hin : i ∈ positions c cols) by by apply elem_of_positions.
  destruct (positions c cols) as [|a [|b ps]].
  - by apply elem_of_nil in Hin.
  - f_equal. apply Hall. by left.
  - exfalso. apply NoDup_cons in Hnd as [Ha _]. apply Ha.
    rewrite (Hall a) by by left. rewrite <- (Hall b) by (right; by left).
    by left.
Qed.

(** A column that stands on the left only keeps its label and its place. *)
Lemma merged_column_index_left_only lcols rcols on j c i :
  (∀ c', c' +:+ "_x" ≠ c) → (∀ c', c' +:+ "_y" ≠ c) → c ≠ on →
  column_index c lcols = Ok i → c ∉ rcols →
  column_index c (merged_columns lcols rcols on j) = Ok i.
Proof.
  intros Hx Hy Hon (_ & Hi & Hiuniq)%column_index_Ok Hright.
  apply column_index_unique.
  - unfold merged_columns. apply lookup_app_l_Some.
    change (map ?f ?l) with (f <$> l). rewrite list_lookup_fmap, Hi. simpl.
    unfold suffixed. rewrite decide_False; [done|]. by intros [_ ?].
  - intros k [[Hk _]|(_ & _ & Habs)]%merged_columns_lookup; try done.
    + by apply Hiuniq.
    + exfalso. apply Habs. by eapply list_elem_of_lookup_2.
Qed.

(** A label that stands on both sides or on neither is no label of the
    merged table. *)
Lemma merged_columns_no_label lcols rcols on j c :
  (∀ c', c' +:+ "_x" ≠ c) → (∀ c', c' +:+ "_y" ≠ c) → c ≠ on →
  (c ∈ lcols ↔ c ∈ rcols) →
  c ∉ merged_columns lcols rcols on j.
Proof.
  intros Hx Hy Hon Hboth [p Hp]%list_elem_of_lookup.
  apply merged_columns_lookup in Hp as [[Hl Hr]|(_ & Hr & Hl)]; try done.
  - apply Hr, Hboth. by eapply list_elem_of_lookup_2.
  - apply Hl, Hboth. eapply list_elem_of_delete_inv.
    by eapply list_elem_of_lookup_2.
Qed.

(** X6. When both joins succeed, [merge_data] needs the date column on
    exactly one side of the second join: with a date column in the sales
    log and in the join of items and categories (the join renames both), or
    in neither, it raises [KeyError] for date. *)
Theorem merge_data_date_on_one_side df_list sl it ic items sales :
  last_named "df_sl" df_list = Some sl →
  last_named "df_it" df_list = Some it →
  last_named "df_ic" df_list = Some ic →
  merge it ic "item_category_id" = Ok items →
  merge sl items "item_id" = Ok sales →
  ("date" ∈ columns sl ↔ "date" ∈ columns items) →
  merge_data df_list = Raise (KeyError "date").
Proof.
  intros Hsl Hit Hic Hitems Hsales Hboth.
  rewrite (merge_data_bound df_list sl it ic) by done.
  unfold merge_spec. rewrite Hitems. simpl. rewrite Hsales. simpl.
  apply merge_Ok in Hsales as (i & j & _ & _ & _ & Hcols & _).
  unfold convert_date, getitem. rewrite Hcols.
  rewrite column_index_missing; [done|].
  apply merged_columns_no_label; auto using date_not_suffixed_x,
    date_not_suffixed_y.
Qed.

Lemma of_parsed_Raise what p e :
  of_parsed what p = Raise e → e = ValueError what ∧ p = Rejected.
Proof. destruct p; simpl; [|done..]. by intros [= <-]. Qed.

Lemma to_datetime_value_Raise fmt v e :
  to_datetime_value fmt v = Raise e → ∃ text, e = ValueError text.
Proof.
  destruct v as [| |z|f|s|t]; simpl; try done.
  - destruct fmt; [|done]. intros [-> _]%of_parsed_Raise. eauto.
  - destruct fmt; intros [-> _]%of_parsed_Raise; eauto.
  - intros [-> _]%of_parsed_Raise. eauto.
Qed.

(** The error of a conversion is that of the first cell that does not
    convert. *)
Lemma to_datetime_with_Raise fmt s e :
  to_datetime_with fmt s = Raise e →
  ∃ v, v ∈ s ∧ to_datetime_value fmt v = Raise e.
Proof.
  induction s as [|v s IH]; simpl; [done|].
  destruct (to_datetime_value fmt v) as [v'|e'] eqn:Hv; simpl.
  - destruct (to_datetime_with fmt s) as [s'|e'] eqn:Hs; simpl; [done|].
    intros [= <-]. destruct (IH eq_refl) as (v0 & Hin & Hv0).
    exists v0. split; [by right | done].
  - intros [= <-]. exists v. split; [by left | done].
Qed.

Lemma to_datetime_with_fails fmt s v :
  v ∈ s → fails (to_datetime_value fmt v) → fails (to_datetime_with fmt s).
Proof.
  intros Hin [e He].
  destruct (to_datetime_with fmt s) as [s'|e'] eqn:Hs; [|by eexists].
  apply to_datetime_with_Ok in Hs.
  apply list_elem_of_lookup in Hin as [n Hn].
  destruct (Forall2_lookup_l _ _ _ _ _ Hs Hn) as (v' & _ & Hv'). congruence.
Qed.

(** X7. When both joins succeed and the date column is the sales log's,
    one date of the sales log that does not convert under the format
    inferred for the joined date column, as a text the parser rejects,
    makes [merge_data] raise the [ValueError] of such a date of the sales
    log; no table is returned. *)
Theorem merge_data_unparsable_date df_list sl it ic items sales d l text :
  last_named "df_sl" df_list = Some sl →
  last_named "df_it" df_list = Some it →
  last_named "df_ic" df_list = Some ic →
  well_formed sl →
  column_index "date" (columns sl) = Ok d →
  merge it ic "item_category_id" = Ok items →
  merge sl items "item_id" = Ok sales →
  "date" ∉ columns items →
  l ∈ rows sl → cell l d = Str text →
  parse_datetime (datetime_format (column_cells (rows sales) d)) text
  = Rejected →
  ∃ text' l',
    merge_data df_list = Raise (ValueError text')
    ∧ l' ∈ rows sl
    ∧ to_datetime_value (datetime_format (column_cells (rows sales) d))
        (cell l' d) = Raise (ValueError text')
    ∧ ∀ s, cell l' d = Str s →
           s = text'
           ∧ parse_datetime (datetime_format (column_cells (rows sales) d)) s
             = Rejected.
Proof.
  intros Hsl Hit Hic Hwf Hd Hitems Hsales Hright Hl Hcell Hparse.
  rewrite (merge_data_bound df_list sl it ic) by done.
  unfold merge_spec. rewrite Hitems. simpl. rewrite Hsales. simpl.
  apply merge_Ok in Hsales as (i & j & _ & _ & _ & Hcols & Hrows).
  assert ("date" ≠ "item_id") as Hne by done.
  unfold convert_date, getitem. rewrite Hcols.
  rewrite (merged_column_index_left_only _ _ _ _ _ d
             date_not_suffixed_x date_not_suffixed_y Hne Hd Hright).
  simpl. apply column_index_lt in Hd as Hdlt.
  assert (Hwidth : ∀ l0, l0 ∈ rows sl → d < length l0).
  { intros l0 Hl0. eapply Forall_forall in Hwf; [|done]. by rewrite Hwf. }
  destruct (joined_rows_flat_map i j sl items) as (floats & Hflat).
  set (promoting := some_unmatched i j sl items) in Hflat.
  rewrite Hflat in Hrows.
  assert (Hjoined : ∀ o, o ∈ rows sales →
                         ∃ l0, l0 ∈ rows sl ∧ cell o d = cell l0 d).
  { intros o Ho. rewrite Hrows in Ho.
    apply list_elem_of_In, in_flat_map in Ho as (l0 & Hl0%list_elem_of_In & Ho).
    apply list_elem_of_In, elem_of_join_row in Ho as (x & -> & _).
    exists l0. split; [done|]. by rewrite cell_app_l by auto. }
  unfold to_datetime.
  revert Hparse. generalize (datetime_format (column_cells (rows sales) d)).
  intros fmt Hparse.
  destruct (to_datetime_with fmt (column_cells (rows sales) d))
    as [dates|e] eqn:Hdates.
  - exfalso.
    assert (Hfails : fails (to_datetime_with fmt (column_cells (rows sales) d))).
    { apply (to_datetime_with_fails _ _ (cell l d)).
      - rewrite Hrows. apply list_elem_of_In, in_map_iff.
        assert (Hne' : join_row floats promoting i j items l ≠ []).
        { intros Hnil.
          pose proof (join_row_length floats promoting i j items l) as Hlen.
          rewrite Hnil in Hlen. simpl in Hlen. lia. }
        destruct (join_row floats promoting i j items l)
          as [|o os] eqn:Hrow; [done|].
        assert (Ho : o ∈ join_row floats promoting i j items l).
        { rewrite Hrow. by left. }
        exists o. split.
        + apply elem_of_join_row in Ho as (x & -> & _).
          by rewrite cell_app_l by auto.
        + apply in_flat_map. exists l. split; by apply list_elem_of_In.
      - rewrite Hcell. simpl. rewrite Hparse. by eexists. }
    destruct Hfails as [e He]. congruence.
  - simpl. apply to_datetime_with_Raise in Hdates as (v & Hin & Hv).
    destruct (to_datetime_value_Raise _ _ _ Hv) as [text' ->].
    apply list_elem_of_In, in_map_iff in Hin as (o & <- & Hin%list_elem_of_In).
    destruct (Hjoined o Hin) as (l' & Hl' & Heq).
    exists text', l'. rewrite <- Heq. split_and!; try done.
    intros s Hs. rewrite Hs in Hv. simpl in Hv.
    apply of_parsed_Raise in Hv as [[= ->] Hv]. done.
Qed.

End merger_date_errors.

Section order.
Context `{External}.

Lemma last_named_cons {T} name (e : Named.t T) (df_list : list (Named.t T)) :
  last_named name (e :: df_list) =
  match last_named name df_list with
  | Some t => Some t
  | None => if decide (Named.df_name e = name) then Some (Named.df e) else None
  end.
Proof.
  unfold last_named. rewrite filter_cons.
  destruct (decide (Named.df_name e = name)); [|by destruct (last _)].
  destruct (filter _ df_list) as [|e' l] eqn:Hf; [done|].
  rewrite last_cons_cons. by destruct (last (e' :: l)) eqn:Hlast;
    [|apply last_None in Hlast].
Qed.

Lemma last_named_Some_elem_of {T} name (df_list : list (Named.t T)) t :
  last_named name df_list = Some t → Named.mk name t ∈ df_list.
Proof.
  unfold last_named. destruct (last _) as [e|] eqn:Hlast; [|done].
  intros [= <-]. apply last_Some_elem_of, list_elem_of_filter in Hlast
    as [<- Hin]. by destruct e.
Qed.

(** With every name borne once, the table found under a name is the table
    of the one entry that bears it. *)
Lemma last_named_unique {T} (df_list : list (Named.t T)) e :
  NoDup (map Named.df_name df_list) → e ∈ df_list →
  last_named (Named.df_name e) df_list = Some (Named.df e).
Proof.
  induction df_list as [|e' l IH]; simpl; [by intros _ ?%elem_of_nil|].
  intros [Hnew Hnd]%NoDup_cons Hin. rewrite last_named_cons.
  apply elem_of_cons in Hin as [->|Hin].
  - apply last_named_absent in Hnew. rewrite Hnew. by rewrite decide_True.
  - by rewrite (IH Hnd Hin).
Qed.

Lemma last_named_permutation {T} name (l l' : list (Named.t T)) :
  l ≡ₚ l' → NoDup (map Named.df_name l) →
  last_named name l = last_named name l'.
Proof.
  intros Hperm Hnd.
  assert (Hnd' : NoDup (map Named.df_name l')).
  { change (map ?f ?xs) with (f <$> xs) in *. by rewrite <- Hperm. }
  destruct (last_named name l) as [t|] eqn:Hl.
  - apply last_named_Some_elem_of in Hl. rewrite Hperm in Hl.
    symmetry. apply (last_named_unique l' (Named.mk name t) Hnd' Hl).
  - destruct (last_named name l') as [t'|] eqn:Hl'; [|done].
    apply last_named_Some_elem_of in Hl'. rewrite <- Hperm in Hl'.
    pose proof (last_named_unique l (Named.mk name t') Hnd Hl') as Hsome.
    simpl in Hsome. congruence.
Qed.

(** X8. [merge_data] takes its tables by name, not by place: when no two
    entries bear the same name, every reordering of the list gives the
    same result, table or exception. *)
Theorem merge_data_order_independent
    (df_list df_list' : list (Named.t DataFrame)) :
  df_list ≡ₚ df_list' →
  NoDup (map Named.df_name df_list) →
  merge_data df_list = merge_data df_list'.
Proof.
  intros Hperm Hnd. unfold merge_data. rewrite !unpack_last_named.
  by rewrite !(last_named_permutation _ df_list df_list').
Qed.

End order.

Section exporter_edges.
Context `{External} `{Ref.Backend}.
Implicit Types (w : Ref.World) (df : Ref.loc) (export_data : ExportData.t).

(** X9. When the backend refuses the cloud write, [export_data_gcs] ends
    with that error before it announces or attempts the local write: the
    backend holds what it held, no table changed, and one line only was
    printed. *)
Theorem export_data_gcs_cloud_refused df export_data w t :
  Ref.heap w !! df = Some t →
  let cloud := Ref.cloud_destination export_data in
  Ref.can_write (Ref.files w) cloud = false →
  ∃ w' line,
    Ref.export_data_gcs df export_data w = (Raise (OSError cloud), w')
    ∧ Ref.files w' = Ref.files w
    ∧ Ref.heap w' = Ref.heap w
    ∧ Ref.trace w' = Ref.trace w ++ [Ref.Printed line].
Proof.
  intros Ht cloud Hcloud. rewrite export_data_gcs_run. fold cloud.
  rewrite Ht. simpl. rewrite Hcloud. by eexists _, _.
Qed.

(** X10. Whatever its outcome, [export_data_gcs] leaves every path of the
    backend other than its two destinations as it was, and removes no
    object. *)
Theorem export_data_gcs_other_paths df export_data w path :
  path ≠ Ref.cloud_destination export_data →
  path ≠ Ref.local_destination export_data →
  let w' := (Ref.export_data_gcs df export_data w).2 in
  Ref.files w' !! path = Ref.files w !! path
  ∧ ∀ other, is_Some (Ref.files w !! other) → is_Some (Ref.files w' !! other).
Proof.
  intros Hcloud Hlocal. rewrite export_data_gcs_run.
  destruct (Ref.heap w !! df) as [t|]; simpl; [|done].
  destruct (Ref.can_write (Ref.files w) _); simpl; [|done].
  destruct (Ref.can_write (<[_:=_]> (Ref.files w)) _); simpl.
  - split; [by rewrite !lookup_insert_ne|].
    intros other Hother. rewrite !lookup_insert_is_Some'. auto.
  - split; [by rewrite !lookup_insert_ne|].
    intros other Hother. rewrite !lookup_insert_is_Some'. auto.
Qed.

End exporter_edges.

Section pipeline.
Context `{External} `{Ref.Backend}.
Implicit Types (w : Ref.World) (df_list : list (Named.t Ref.loc)).

Lemma merge_data_grows df_list w :
  ∃ new, (Ref.merge_data df_list w).2 = Ref.grown w new.
Proof.
  unfold Ref.merge_data. rewrite bind_run.
  destruct (unpack_from_run df_list Locals.unbound w) as (c1 & Hw1 & _).
  destruct (Ref.unpack_from Locals.unbound df_list w) as [[vars|e] w1];
    simpl in Hw1; subst w1; [|by exists c1].
  destruct (merge_locals_run vars (Ref.grown w c1)) as (c2 & Hw2 & _).
  exists (c1 ++ c2). by rewrite Hw2, grown_grown.
Qed.

(** X11. What [merge_data] returns depends on the contents of the tables
    its list refers to only, not on where they stand in the heap or on
    what else the heap holds: two runs on lists that stand for the same
    named tables raise the same exception, or return objects that hold the
    same table. *)
Theorem merge_data_depends_on_contents df_list1 w1 df_list2 w2 named :
  Ref.deref_list (Ref.heap w1) df_list1 = Some named →
  Ref.deref_list (Ref.heap w2) df_list2 = Some named →
  match (Ref.merge_data df_list1 w1).1, (Ref.merge_data df_list2 w2).1 with
  | Ok l1, Ok l2 =>
      ∃ out, Ref.heap (Ref.merge_data df_list1 w1).2 !! l1 = Some out
             ∧ Ref.heap (Ref.merge_data df_list2 w2).2 !! l2 = Some out
             ∧ merge_data named = Ok out
  | Raise e1, Raise e2 => e1 = e2 ∧ merge_data named = Raise e1
  | _, _ => False
  end.
Proof.
  intros H1 H2.
  pose proof (merge_data_on_objects df_list1 w1 named H1) as Hrun1.
  pose proof (merge_data_on_objects df_list2 w2 named H2) as Hrun2.
  destruct (merge_data named) as [out|e].
  - destruct Hrun1 as (l1 & -> & Hout1 & _).
    destruct Hrun2 as (l2 & -> & Hout2 & _). by exists out.
  - by rewrite Hrun1, Hrun2.
Qed.

(** X12. Merging and then exporting the returned table, on a backend that
    accepts both writes, leaves at the cloud destination and at the local
    one the CSV text of the table [merge_data] computes from the listed
    tables, returns a reference to that table, and leaves the listed
    tables as they were. *)
Theorem merge_then_export df_list export_data w named out :
  Ref.deref_list (Ref.heap w) df_list = Some named →
  merge_data named = Ok out →
  let cloud := Ref.cloud_destination export_data in
  let local := Ref.local_destination export_data in
  Ref.can_write (Ref.files w) cloud = true →
  Ref.can_write (<[cloud:=to_csv out]> (Ref.files w)) local = true →
  ∃ l w',
    (df ← Ref.merge_data df_list; Ref.export_data_gcs df export_data) w
    = (Ok l, w')
    ∧ Ref.heap w' !! l = Some out
    ∧ Ref.files w' !! cloud = Some (to_csv out)
    ∧ Ref.files w' !! local = Some (to_csv out)
    ∧ Ref.deref_list (Ref.heap w') df_list = Some named.
Proof.
  intros Hnamed Hout cloud local Hcloud Hlocal.
  pose proof (merge_data_on_objects df_list w named Hnamed) as Hrun.
  rewrite Hout in Hrun. destruct Hrun as (l & Hl & Hheap & _).
  destruct (merge_data_grows df_list w) as (new & Hw1).
  rewrite bind_run.
  destruct (Ref.merge_data df_list w) as [r w1]. simpl in *. subst r w1.
  rewrite export_data_gcs_run. fold cloud local. simpl in *.
  rewrite Hheap. simpl. rewrite Hcloud, Hlocal.
  eexists _, _. split; [done|]. simpl. split_and!.
  - done.
  - destruct (decide (local = cloud)) as [->|Hne].
    + apply lookup_insert_eq.
    + rewrite lookup_insert_ne by done. apply lookup_insert_eq.
  - apply lookup_insert_eq.
  - by apply deref_list_grown.
Qed.

End pipeline.

Section left_join.
Context `{External}.
Implicit Types (df_list : list (Named.t DataFrame)) (sl it ic out : DataFrame).

(** X13. With an items table that lists every item_id once and a
    categories table that lists every item_category_id once, the table
    [merge_data] returns has exactly one row per row of the sales log. *)
Theorem merge_data_unique_keys_row_count df_list sl it ic out i :
  last_named "df_sl" df_list = Some sl →
  last_named "df_it" df_list = Some it →
  last_named "df_ic" df_list = Some ic →
  well_formed it →
  column_index "item_id" (columns it) = Ok i →
  unique_on it "item_id" →
  unique_on ic "item_category_id" →
  merge_data df_list = Ok out →
  length (rows out) = length (rows sl).
Proof.
  intros Hsl Hit Hic Hwf Hi Huit Huic Hout.
  rewrite (merge_data_bound df_list sl it ic) in Hout by done.
  apply merge_spec_Ok in Hout as (items & sales & Hitems & Hsales & Hout).
  rewrite (convert_date_row_count _ _ Hout).
  apply (merge_unique_row_count sl items "item_id" sales Hsales).
  by apply (items_join_unique it ic items i).
Qed.

Lemma Forall2_app_middle {A B} (R : A → B → Prop) xs1 x xs2 ys :
  Forall2 R (xs1 ++ x :: xs2) ys →
  ∃ ys1 y ys2, ys = ys1 ++ y :: ys2 ∧ R x y ∧ length ys1 = length xs1.
Proof.
  intros (ys1 & ys' & H1 & H2 & ->)%Forall2_app_inv_l.
  apply Forall2_cons_inv_l in H2 as (y & ys2 & Hxy & _ & ->).
  exists ys1, y, ys2. split_and!; [done | done|].
  symmetry. by eapply Forall2_length.
Qed.

Lemma as_float_key_key_form floats v v' :
  as_float_key v ≠ as_float_key v' → key_form floats v ≠ key_form floats v'.
Proof. destruct floats; simpl; [done | congruence]. Qed.

Lemma missing_row_missing right j :
  Forall (fun v => v = NaN ∨ v = NaT) (missing_row right j).
Proof.
  apply Forall_forall. intros v Hv%list_elem_of_delete_inv.
  apply list_elem_of_In, in_map_iff in Hv as (c & <- & _).
  unfold missing_of. destruct (holds_dates _); auto.
Qed.

(** X14. A sales-log row whose item_id no row of the items-categories
    join carries, not even as a float, is kept, once: the output has a row
    made of that row, its date converted, followed by missing values
    only, one for every column of the join but its key. *)
Theorem merge_data_keeps_unmatched_row df_list sl it ic out items i j d l :
  last_named "df_sl" df_list = Some sl →
  last_named "df_it" df_list = Some it →
  last_named "df_ic" df_list = Some ic →
  well_formed sl →
  column_index "date" (columns sl) = Ok d →
  merge it ic "item_category_id" = Ok items →
  column_index "item_id" (columns sl) = Ok i →
  column_index "item_id" (columns items) = Ok j →
  l ∈ rows sl →
  (∀ r, r ∈ rows items → as_float_key (cell r j) ≠ as_float_key (cell l i)) →
  merge_data df_list = Ok out →
  ∃ sales before after v,
    merge sl items "item_id" = Ok sales
    ∧ rows out = before ++ (<[d:=v]> l ++ missing_row items j) :: after
    ∧ to_datetime_value (datetime_format (column_cells (rows sales) d))
        (cell l d) = Ok v
    ∧ length (missing_row items j) = length (columns items) - 1
    ∧ Forall (fun c => c = NaN ∨ c = NaT) (missing_row items j).
Proof.
  intros Hsl Hit Hic Hwf Hd Hitems Hi Hj Hl Hunmatched Hout.
  rewrite (merge_data_bound df_list sl it ic) in Hout by done.
  apply merge_spec_Ok in Hout as (items' & sales & Hitems' & Hsales & Hout).
  assert (items' = items) as -> by congruence.
  pose proof Hsales as Hmerge.
  apply merge_Ok in Hsales as (i' & j' & Hi' & Hj' & _ & Hcols & Hrows).
  assert (i' = i) as -> by congruence. assert (j' = j) as -> by congruence.
  apply convert_date_Ok in Hout as (p & Hp & _ & Horows).
  assert (p = d) as ->.
  { rewrite Hcols in Hp. assert ("date" ≠ "item_id") as Hne by done.
    by destruct (merged_column_index_left _ _ _ _ _ _ _
                   date_not_suffixed_x date_not_suffixed_y
                   Hne Hd Hp) as [-> _]. }
  remember (datetime_format (column_cells (rows sales) d)) as fmt eqn:Hfmt
    in Horows.
  destruct (joined_rows_flat_map i j sl items) as (floats & Hflat).
  set (promoting := some_unmatched i j sl items) in Hflat.
  assert (Hrow : join_row floats promoting i j items l
                 = [l ++ missing_row items j]).
  { unfold join_row. rewrite partners_none; [done|].
    intros (r & Heq & Hr%list_elem_of_In)%list_elem_of_In%in_map_iff.
    by apply (as_float_key_key_form floats _ _ (Hunmatched r Hr)). }
  apply list_elem_of_split in Hl as (ls1 & ls2 & Hsplit).
  rewrite Hrows, Hflat, Hsplit in Horows.
  rewrite flat_map_app in Horows. simpl in Horows. rewrite Hrow in Horows.
  simpl in Horows.
  apply Forall2_app_middle in Horows as (os1 & o & os2 & Ho & (v & Hv & ->) & _).
  apply column_index_lt in Hd.
  assert (Hlen : d < length l).
  { eapply Forall_forall in Hwf;
      [|rewrite Hsplit; apply elem_of_app; right; by left].
    by rewrite Hwf. }
  exists sales, os1, os2, v. split_and!.
  - done.
  - by rewrite Ho, insert_app_l.
  - subst fmt. by rewrite cell_app_l in Hv.
  - apply length_missing_row. by eapply column_index_lt.
  - apply missing_row_missing.
Qed.

End left_join.

Section refusals.
Context `{External}.
Implicit Types (df_list : list (Named.t DataFrame)) (sl it ic : DataFrame).



End refusals.

(** ** The further properties on the sample inputs *)

Section further_samples.
#[local] Existing Instance sample_external.

Lemma sample_unique_on_item_id : unique_on sample_it "item_id".
Proof.
  intros s Hs. vm_compute in Hs. injection Hs as <-.
  apply (bool_decide_unpack _). vm_compute. exact I.
Defined.

Lemma sample_unique_on_category : unique_on sample_ic "item_category_id".
Proof.
  intros s Hs. vm_compute in Hs. injection Hs as <-.
  apply (bool_decide_unpack _). vm_compute. exact I.
Defined.

Lemma sample_it_well_formed : well_formed sample_it.
Proof. repeat constructor. Defined.

Lemma sample_ic_well_formed : well_formed sample_ic.
Proof. repeat constructor. Defined.

(** The four output rows of the list with a repeated item are no fewer
    than its three sales rows. *)
Lemma merge_data_keeps_every_sales_row_witness :
  length (rows sample_sl) ≤ length (rows repeated_out)
  ∧ (rows sample_sl = [] → rows repeated_out = []).
Proof.
  apply (merge_data_keeps_every_sales_row repeated_list sample_sl repeated_out).
  - reflexivity.
  - vm_compute. reflexivity.
Defined.

(** The sample output is rectangular, with 3 + 2 + 2 - 2 columns. *)
Lemma merge_data_well_formed_witness :
  well_formed sample_out
  ∧ length (columns sample_out)
    = length (columns sample_sl) + length (columns sample_it)
      + length (columns sample_ic) - 2.
Proof.
  apply (merge_data_well_formed sample_list sample_sl sample_it sample_ic
           sample_out);
    [reflexivity | reflexivity | reflexivity | exact sample_sl_well_formed
    | exact sample_it_well_formed | exact sample_ic_well_formed
    | vm_compute; reflexivity].
Defined.

(** The date column of the sample output holds timestamps. *)
Lemma merge_data_date_typed_witness :
  ∃ dates, getitem sample_out "date" = Ok dates
           ∧ length dates = length (rows sample_out)
           ∧ Forall is_datetime dates.
Proof.
  apply (merge_data_date_typed sample_list sample_sl sample_it sample_ic
           sample_out);
    [reflexivity | reflexivity | reflexivity | exact sample_sl_well_formed
    | exact sample_it_well_formed | exact sample_ic_well_formed
    | vm_compute; reflexivity].
Defined.

(** With a date column in the sales log and in the items table the merge
    raises [KeyError]. *)
Lemma merge_data_date_on_one_side_witness :
  merge_data clashing_list = Raise (KeyError "date").
Proof.
  eapply (merge_data_date_on_one_side clashing_list sample_sl dated_it
            sample_ic).
  - reflexivity.
  - reflexivity.
  - reflexivity.
  - vm_compute. reflexivity.
  - vm_compute. reflexivity.
  - split; intros _; apply (bool_decide_unpack _); vm_compute; exact I.
Defined.

(** The second date of the mixed sales log parses alone, not under the
    format of the first, and makes the merge raise [ValueError]. *)
Lemma merge_data_unparsable_date_witness :
  parse_datetime None "01/02/2013" = At second_day
  ∧ ∃ text' l',
      merge_data mixed_list = Raise (ValueError text')
      ∧ l' ∈ rows mixed_sl
      ∧ to_datetime_value (datetime_format (column_cells (rows mixed_sales) 1))
          (cell l' 1) = Raise (ValueError text')
      ∧ ∀ s, cell l' 1 = Str s →
             s = text'
             ∧ parse_datetime
                 (datetime_format (column_cells (rows mixed_sales) 1)) s
               = Rejected.
Proof.
  split; [reflexivity|].
  eapply (merge_data_unparsable_date mixed_list mixed_sl sample_it
            sample_ic sample_items mixed_sales 1
            [Int 2; Str "01/02/2013"; Int 1] "01/02/2013").
  - reflexivity.
  - reflexivity.
  - reflexivity.
  - repeat constructor.
  - vm_compute. reflexivity.
  - vm_compute. reflexivity.
  - vm_compute. reflexivity.
  - apply (bool_decide_unpack _). vm_compute. exact I.
  - apply (bool_decide_unpack _). vm_compute. exact I.
  - reflexivity.
  - reflexivity.
Defined.

(** The sample list and its reverse merge into the same table. *)
Lemma merge_data_order_independent_witness :
  merge_data sample_list = merge_data reversed_list.
Proof.
  apply (merge_data_order_independent sample_list reversed_list).
  - exact (Permutation_rev sample_list).
  - apply (bool_decide_unpack _). vm_compute. exact I.
Defined.

(** Two heaps that hold the sample tables at different places give the
    same merged table. *)
Lemma merge_data_depends_on_contents_witness :
  match (Ref.merge_data sample_refs sample_world).1,
        (Ref.merge_data shuffled_refs shuffled_world).1 with
  | Ok l1, Ok l2 =>
      ∃ out,
        Ref.heap (Ref.merge_data sample_refs sample_world).2 !! l1 = Some out
        ∧ Ref.heap (Ref.merge_data shuffled_refs shuffled_world).2 !! l2
          = Some out
        ∧ merge_data sample_list = Ok out
  | Raise e1, Raise e2 => e1 = e2 ∧ merge_data sample_list = Raise e1
  | _, _ => False
  end.
Proof.
  apply (merge_data_depends_on_contents sample_refs sample_world
           shuffled_refs shuffled_world sample_list).
  - reflexivity.
  - reflexivity.
Defined.

(** With unique keys the sample output has the three rows of the sales
    log. *)
Lemma merge_data_unique_keys_row_count_witness :
  length (rows sample_out) = length (rows sample_sl).
Proof.
  apply (merge_data_unique_keys_row_count sample_list sample_sl sample_it
           sample_ic sample_out 0);
    [reflexivity | reflexivity | reflexivity | exact sample_it_well_formed
    | vm_compute; reflexivity | exact sample_unique_on_item_id
    | exact sample_unique_on_category | vm_compute; reflexivity].
Defined.

(** The sales row of item 9, which no category lists, stands in the sample
    output with missing values. *)
Lemma merge_data_keeps_unmatched_row_witness :
  ∃ sales before after v,
    merge sample_sl sample_items "item_id" = Ok sales
    ∧ rows sample_out
      = before
        ++ (<[1:=v]> [Int 9; Str "2013-01-02"; Int 5]
            ++ missing_row sample_items 0) :: after
    ∧ to_datetime_value (datetime_format (column_cells (rows sales) 1))
        (cell [Int 9; Str "2013-01-02"; Int 5] 1) = Ok v
    ∧ length (missing_row sample_items 0) = length (columns sample_items) - 1
    ∧ Forall (fun c => c = NaN ∨ c = NaT) (missing_row sample_items 0).
Proof.
  apply (merge_data_keeps_unmatched_row sample_list sample_sl sample_it
           sample_ic sample_out sample_items 0 0 1
           [Int 9; Str "2013-01-02"; Int 5]).
  - reflexivity.
  - reflexivity.
  - reflexivity.
  - exact sample_sl_well_formed.
  - vm_compute. reflexivity.
  - vm_compute. reflexivity.
  - vm_compute. reflexivity.
  - vm_compute. reflexivity.
  - apply (bool_decide_unpack _). vm_compute. exact I.
  - intros r Hr. unfold sample_items in Hr. simpl in Hr.
    rewrite !elem_of_cons in Hr.
    destruct Hr as [->|[->|Hr]];
      [intros Heq; vm_compute in Heq; discriminate Heq
      |intros Heq; vm_compute in Heq; discriminate Heq|].
    by apply elem_of_nil in Hr.
  - vm_compute. reflexivity.
Defined.


End further_samples.

Section further_samples_distinct.
#[local] Existing Instance distinct_external.


End further_samples_distinct.

Section further_samples_closed_backend.
#[local] Existing Instance sample_external.
#[local] Existing Instance closed_backend.

(** On the backend that refuses every write the export stops at the cloud
    write. *)
Lemma export_data_gcs_cloud_refused_witness :
  ∃ w' line,
    Ref.export_data_gcs 0 sample_export merged_world
    = (Raise (OSError "gcs://sales-bucket/merged/merged.csv"), w')
    ∧ Ref.files w' = Ref.files merged_world
    ∧ Ref.heap w' = Ref.heap merged_world
    ∧ Ref.trace w' = Ref.trace merged_world ++ [Ref.Printed line].
Proof.
  apply (export_data_gcs_cloud_refused 0 sample_export merged_world sample_out).
  - reflexivity.
  - reflexivity.
Defined.

End further_samples_closed_backend.

Section further_samples_open_backend.
#[local] Existing Instance sample_external.
#[local] Existing Instance open_backend.

(** The export leaves the imported CSV object of the sample backend in
    place. *)
Lemma export_data_gcs_other_paths_witness :
  Ref.files (Ref.export_data_gcs 0 sample_export merged_world).2
    !! "gcs://sales-bucket/raw/items.csv"
  = Some sample_items_text.
Proof.
  destruct (export_data_gcs_other_paths 0 sample_export merged_world
              "gcs://sales-bucket/raw/items.csv") as [Hsame _].
  - discriminate.
  - discriminate.
  - rewrite Hsame. vm_compute. reflexivity.
Defined.

(** Merging the sample tables and exporting the result writes the CSV text
    of the sample output to both destinations. *)
Lemma merge_then_export_witness :
  ∃ l w',
    (df ← Ref.merge_data sample_refs; Ref.export_data_gcs df sample_export)
      sample_world
    = (Ok l, w')
    ∧ Ref.heap w' !! l = Some sample_out
    ∧ Ref.files w' !! "gcs://sales-bucket/merged/merged.csv"
      = Some (to_csv sample_out)
    ∧ Ref.files w' !! "out/merged.csv" = Some (to_csv sample_out)
    ∧ Ref.deref_list (Ref.heap w') sample_refs = Some sample_list.
Proof.
  apply (merge_then_export sample_refs sample_export sample_world sample_list
           sample_out).
  - reflexivity.
  - vm_compute. reflexivity.
  - reflexivity.
  - reflexivity.
Defined.

End further_samples_open_backend.
